(** * The line editor of elvish: key decoder and screen writer

    A shallow embedding of [edit/reader.go] (the terminal key decoder) and
    [edit/writer.go] (the cell buffer, the screen writer and [refresh]: its
    line part first, the rest of it after), followed by the properties
    proved about them.

    Conventions.
    - A [rune] (Go's int32) and an [int] are values of [Z].  The only
      arithmetic on input-controlled ints that can leave the 64-bit range is
      the accumulation of a CSI parameter, which is wrapped by [wrap64];
      columns and widths of a buffer stay within a terminal's size and are
      added in [Z].
    - A Go [string] that is formatted or compared is a [string] of bytes; a
      Go string that the code only ranges over is a [text], the list of
      runes that [range] yields.
    - A run-time panic (index out of range, [make] with a negative
      capacity) is [None] in the [option] monad.
    - Declarations that live in other files of the package (the key names,
      [wcwidth], the attribute table) are the fields of a class. *)

From Stdlib Require Import ZArith List String Ascii Lia DecimalString.
From stdpp Require Import base option list strings.

Local Open Scope string_scope.
Local Open Scope list_scope.
Local Open Scope Z_scope.

(** ** Runes, keys and errors *)

Definition rune := Z.

(** [Key{rune, Mod}]: a code point and a modifier bit set. *)
Record Key := mkKey { Key_rune : rune; Mod : Z }.

(** The names of key.go that reader.go uses: the function keys (runes of
    a reserved range), the modifier bits and the [ZeroKey] sentinel. *)
Class KeyNames := {
  F1 : rune; F2 : rune; F3 : rune; F4 : rune; F5 : rune; F6 : rune;
  F7 : rune; F8 : rune; F9 : rune; F10 : rune; F11 : rune; F12 : rune;
  Up : rune; Down : rune; Right : rune; Left : rune;
  Home : rune; End : rune; Insert : rune; Delete : rune;
  PageUp : rune; PageDown : rune; Backspace : rune;
  Shift : Z; Alt : Z; Ctrl : Z;
  ZeroKey : Key
}.

(** Go's [error] values that the decoder tells apart: the [async.Timeout]
    sentinel, [BadEscSeq], and any other error of the byte source. *)
Inductive error :=
  | async_Timeout
  | BadEscSeq
  | IOError (msg : string).

Definition error_eqb (a b : error) : bool :=
  match a, b with
  | async_Timeout, async_Timeout => true
  | BadEscSeq, BadEscSeq => true
  | IOError m, IOError m' => String.eqb m m'
  | _, _ => false
  end.

(** [io.EOF], returned by a byte source that has nothing left. *)
Definition EOF : error := IOError "EOF".

(** [EscTimeout = time.Millisecond * 10], in nanoseconds. *)
Definition EscTimeout : Z := 10000000.

(** ** The byte source

    What one call of [rd.buffed.ReadRune()] yields: a rune, or an error. *)
Inductive outcome :=
  | Rune (r : rune)
  | Fail (e : error).

(** The [reader]: the [Timeout] field of [rd.timed], and the outcomes of the
    calls of [ReadRune] still to come, in order.  A call of [readKey] that
    returns has read finitely many runes, so a finite list describes it;
    a source with nothing left reports [io.EOF].  The list may hold
    [async.Timeout] at any place: every behaviour of the timed byte source
    is among the streams. *)
Record reader := mkReader { Timeout : Z; stream : list outcome }.

Definition setTimeout (t : Z) (rd : reader) : reader :=
  {| Timeout := t; stream := stream rd |}.

Definition ReadRune (rd : reader) : outcome * reader :=
  match stream rd with
  | [] => (Fail EOF, rd)
  | o :: rest => (o, {| Timeout := Timeout rd; stream := rest |})
  end.

(** ** Tables of reader.go *)

(** A Go map literal, as the list of its entries. *)
Fixpoint lookup_table (k : Z) (t : list (Z * rune)) : option rune :=
  match t with
  | [] => None
  | (k', v) :: t' => if k =? k' then Some v else lookup_table k t'
  end.

Section Tables.
Context `{KeyNames}.

(** Keys ['P'], ['Q'], ['R'], ['S'], ['H'], ['F']. *)
Definition g3Seq : list (rune * rune) :=
  [ (80, F1); (81, F2); (82, F3); (83, F4); (72, Home); (70, End) ].

(** Keys ['A'], ['B'], ['C'], ['D'], ['H'], ['F']. *)
Definition keyByLast : list (rune * rune) :=
  [ (65, Up); (66, Down); (67, Right); (68, Left); (72, Home); (70, End) ].

Definition keyByNum0 : list (Z * rune) :=
  [ (1, Home); (2, Insert); (3, Delete); (4, End); (5, PageUp);
    (6, PageDown);
    (11, F1); (12, F2); (13, F3); (14, F4);
    (15, F5); (17, F6); (18, F7); (19, F8); (20, F9); (21, F10);
    (23, F11); (24, F12) ].

(** Each code maps to the character of that code (9 is ['\t'], 13 is
    ['\r']), but for the last entry, [63: ';']. *)
Definition keyByNum2 : list (Z * rune) :=
  [ (9, 9); (13, 13);
    (33, 33); (35, 35); (39, 39); (40, 40); (41, 41); (43, 43); (44, 44);
    (45, 45); (46, 46);
    (48, 48); (49, 49); (50, 50); (51, 51); (52, 52); (53, 53); (54, 54);
    (55, 55); (56, 56); (57, 57);
    (58, 58); (59, 59); (60, 60); (61, 61); (62, 62); (63, 59) ].
End Tables.

(** ** Decoding: [xtermModify], [parseCSI], [readKey] *)

(** Go's 64-bit [int]: the value of an arithmetic result after wrap-around. *)
Definition wrap64 (z : Z) : Z := (z + 2 ^ 63) mod 2 ^ 64 - 2 ^ 63.

(** [nums[i]]; every use below is guarded by a test of [len(nums)], so the
    default is never read. *)
Definition at_ (nums : list Z) (i : nat) : Z := nth i nums 0.

Definition len {A} (l : list A) : Z := Z.of_nat (length l).

Section Decoder.
Context `{KeyNames}.

Definition orMod (k : Key) (m : Z) : Key :=
  {| Key_rune := Key_rune k; Mod := Z.lor (Mod k) m |}.

Definition xtermModify (k : Key) (mod_ : Z) : Key * option error :=
  match mod_ with
  | 0 => (k, None)
  | 2 => (orMod k Shift, None)
  | 3 => (orMod k Alt, None)
  | 4 => (orMod k (Z.lor Shift Alt), None)
  | 5 => (orMod k Ctrl, None)
  | 6 => (orMod k (Z.lor Shift Ctrl), None)
  | 7 => (orMod k (Z.lor Alt Ctrl), None)
  | 8 => (orMod k (Z.lor (Z.lor Shift Alt) Ctrl), None)
  | _ => (ZeroKey, Some BadEscSeq)
  end.

Definition parseCSI (nums : list Z) (last : rune) : Key * option error :=
  if negb (len nums =? 0) && negb (len nums =? 2) then
    (ZeroKey, Some BadEscSeq)
  else
    match lookup_table last keyByLast with
    | Some r =>
        let k := mkKey r 0 in
        if len nums =? 0 then (k, None)
        else if negb (len nums =? 2) || negb (at_ nums 0 =? 1) then
          (ZeroKey, Some BadEscSeq)
        else xtermModify k (at_ nums 1)
    | None =>
        let bad := (ZeroKey, Some BadEscSeq) in
        if last =? 126 (* '~' *) then
          if (len nums =? 1) || (len nums =? 2) then
            match lookup_table (at_ nums 0) keyByNum0 with
            | Some r =>
                let k := mkKey r 0 in
                if len nums =? 2 then xtermModify k (at_ nums 1)
                else (k, None)
            | None => bad
            end
          else if (len nums =? 3) && (at_ nums 0 =? 27) then
            match lookup_table (at_ nums 2) keyByNum2 with
            | Some r => xtermModify (mkKey r 0) (at_ nums 1)
            | None => bad
            end
          else bad
        else bad
    end.

(** One round of the parameter loop of the CSI branch on a rune that is a
    digit or [';']: the update of [nums]. *)
Definition csiParam (nums : list Z) (r : rune) : list Z :=
  let nums := if len nums =? 0 then nums ++ [0] else nums in
  if r =? 59 (* ';' *) then nums ++ [0]
  else
    let cur := (length nums - 1)%nat in
    alter (fun n => wrap64 (n * 10 + (r - 48))) cur nums.

(** The [for] loop of the CSI branch, by recursion on the outcomes still
    to come; [tmo] is [rd.timed.Timeout].  [readCSI_eq] below restates it
    with [ReadRune]. *)
Fixpoint readCSI (pending : list outcome) (tmo : Z) (nums : list Z)
  : Key * option error * reader :=
  match pending with
  | [] => (ZeroKey, Some EOF, mkReader tmo [])
  | Fail e :: rest =>
      if error_eqb e async_Timeout then (mkKey 91 Alt, None, mkReader tmo rest)
      else (ZeroKey, Some e, mkReader tmo rest)
  | Rune r :: rest =>
      if negb (r =? 59) && ((r <? 48) || (57 <? r)) then
        let '(k, e) := parseCSI nums r in (k, e, mkReader (-1) rest)
      else readCSI rest (-1) (csiParam nums r)
  end.

(** The body of [case 0x1b] after the timeout is set; [r] is the rune read
    first (0x1b), the variable that the [return] after the inner [switch]
    names. *)
Definition readEsc (r : rune) (rd : reader) : Key * option error * reader :=
  let '(o2, rd) := ReadRune rd in
  match o2 with
  | Fail e =>
      if error_eqb e async_Timeout then (mkKey 91 Ctrl, None, rd)
      else (ZeroKey, Some e, rd)
  | Rune r2 =>
      if r2 =? 91 (* '[' *) then readCSI (stream rd) (Timeout rd) []
      else if r2 =? 79 (* 'O' *) then
        let '(o3, rd) := ReadRune rd in
        match o3 with
        | Fail e =>
            if error_eqb e async_Timeout then (mkKey r2 Alt, None, rd)
            else (ZeroKey, Some e, rd)
        | Rune r3 =>
            match lookup_table r3 g3Seq with
            | Some r => (mkKey r 0, None, rd)
            | None => (ZeroKey, Some BadEscSeq, rd)
            end
        end
      else (mkKey r Alt, None, rd)
  end.

(** [readKey]: the key, the error (nil is [None]) and the reader afterwards.
    When the first read fails the function returns without operands: [k]
    still is the zero [Key].  The last line of the ESC branch is the
    deferred function. *)
Definition readKey (rd : reader) : Key * option error * reader :=
  let '(o, rd) := ReadRune rd in
  match o with
  | Fail e => (mkKey 0 0, Some e, rd)
  | Rune r =>
      match r with
      | 0 => (mkKey 96 (* '`' *) Ctrl, None, rd)
      | 29 => (mkKey 54 (* '6' *) Ctrl, None, rd)
      | 31 => (mkKey 47 (* '/' *) Ctrl, None, rd)
      | 127 => (mkKey Backspace 0, None, rd)
      | 27 =>
          let rd := setTimeout EscTimeout rd in
          let '(k, e, rd) := readEsc r rd in
          (k, e, setTimeout (-1) rd)
      | _ =>
          if (1 <=? r) && (r <=? 29) then (mkKey (r + 64) Ctrl, None, rd)
          else (mkKey r 0, None, rd)
      end
  end.
End Decoder.

(** A sample assignment of the names of key.go, for concrete runs: function
    keys are negative runes, the modifiers are three distinct bits, and
    [ZeroKey] is the zero [Key]. *)
Definition sampleKeys : KeyNames := {|
  F1 := -1; F2 := -2; F3 := -3; F4 := -4; F5 := -5; F6 := -6;
  F7 := -7; F8 := -8; F9 := -9; F10 := -10; F11 := -11; F12 := -12;
  Up := -13; Down := -14; Right := -15; Left := -16;
  Home := -17; End := -18; Insert := -19; Delete := -20;
  PageUp := -21; PageDown := -22; Backspace := -23;
  Shift := 1; Alt := 2; Ctrl := 4;
  ZeroKey := mkKey 0 0
|}.

(** The runes of a byte sequence of plain ASCII, as outcomes of [ReadRune]. *)
Definition runes (rs : list rune) : list outcome := map Rune rs.

(** ** Cells and buffers (writer.go) *)

(** [unicode.IsPrint] of Go's library and [wcwidth] of this package (the
    width oracle: the display columns of a code point). *)
Class WidthOracle := {
  IsPrint : rune -> bool;
  wcwidth : rune -> Z
}.

(** The conversion [byte(wd)] of an [int]. *)
Definition byte (z : Z) : Z := z mod 256.

Record cell := mkCell { cell_rune : rune; cell_width : Z; cell_attr : string }.

Record pos := mkPos { line : Z; pos_col : Z }.

Record buffer := mkBuffer {
  width : Z; col : Z; indent : Z;
  cells : list (list cell);
  dot : pos
}.

Definition with_cells (b : buffer) (cs : list (list cell)) (c : Z) : buffer :=
  {| width := width b; col := c; indent := indent b; cells := cs; dot := dot b |}.

Definition with_indent (b : buffer) (k : Z) : buffer :=
  {| width := width b; col := col b; indent := k; cells := cells b; dot := dot b |}.

Definition with_dot (b : buffer) (p : pos) : buffer :=
  {| width := width b; col := col b; indent := indent b; cells := cells b; dot := p |}.

(** [make([]cell, 0, width)] panics when the capacity is negative. *)
Definition newBuffer (width : Z) : option buffer :=
  if width <? 0 then None
  else Some {| width := width; col := 0; indent := 0; cells := [[]];
               dot := mkPos 0 0 |}.

(** [b.cells[n-1] = append(b.cells[n-1], c)] panics on a buffer without
    lines. *)
Definition appendCell (c : cell) (b : buffer) : option buffer :=
  match length (cells b) with
  | O => None
  | S m =>
      l ← cells b !! m;
      Some (with_cells b (<[m := l ++ [c]]> (cells b)) (col b + cell_width c))
  end.

Definition appendLine (b : buffer) : option buffer :=
  if width b <? 0 then None
  else Some (with_cells b (cells b ++ [[]]) 0).

(** [n] rounds of a loop whose body is [f]. *)
Fixpoint times (n : nat) (f : buffer -> option buffer) (b : buffer)
  : option buffer :=
  match n with
  | O => Some b
  | S n' => b' ← f b; times n' f b'
  end.

(** [cell{rune: ' ', width: 1}] *)
Definition space : cell := mkCell 32 1 "".

Definition newline (b : buffer) : option buffer :=
  b ← appendLine b;
  if indent b >? 0 then times (Z.to_nat (indent b)) (appendCell space) b
  else Some b.

Section Buffer.
Context `{WidthOracle}.

Definition write (r : rune) (attr : string) (b : buffer) : option buffer :=
  if r =? 10 (* '\n' *) then newline b
  else if negb (IsPrint r) then Some b
  else
    let wd := wcwidth r in
    let c := mkCell r (byte wd) attr in
    if col b + wd >? width b then
      b ← newline b; appendCell c b
    else if col b + wd =? width b then
      b ← appendCell c b; newline b
    else appendCell c b.

(** A Go string that is only ranged over: the runes [range] yields. *)
Definition text := list rune.

Fixpoint writes (s : text) (attr : string) (b : buffer) : option buffer :=
  match s with
  | [] => Some b
  | r :: s' => b ← write r attr b; writes s' attr b
  end.

(** A sequence of calls of [write], each with its own attribute. *)
Fixpoint writeAll (ws : list (rune * string)) (b : buffer) : option buffer :=
  match ws with
  | [] => Some b
  | (r, a) :: ws' => b ← write r a b; writeAll ws' b
  end.
End Buffer.

Definition cursor (b : buffer) : pos := mkPos (len (cells b) - 1) (col b).

(** The summed cell widths of a line. *)
Definition lineWidth (l : list cell) : Z :=
  foldr (fun c s => cell_width c + s) 0 l.

(** No line of the buffer is wider than the buffer. *)
Definition fits (b : buffer) : Prop :=
  Forall (fun l => lineWidth l <= width b) (cells b).

(** A sample width oracle for concrete runs.  It agrees with
    [unicode.IsPrint] and the East Asian Width table on printable ASCII
    (width 1), the combining diacritical marks U+0300..U+036F (printable,
    width 0) and the CJK unified ideographs U+4E00..U+9FFF (printable,
    width 2); every other rune counts as not printable. *)
Definition sampleWidths : WidthOracle := {|
  IsPrint r :=
    ((32 <=? r) && (r <=? 126)) || ((768 <=? r) && (r <=? 879))
    || ((19968 <=? r) && (r <=? 40959));
  wcwidth r :=
    if (19968 <=? r) && (r <=? 40959) then 2
    else if (768 <=? r) && (r <=? 879) then 0
    else 1
|}.

(** ** The bytes sent to the terminal *)

Definition chr (z : Z) : string := String (ascii_of_N (Z.to_N z)) "".

Definition esc : string := chr 27.

(** [string(r)]: the UTF-8 encoding of a rune; a value that is not a valid
    code point is encoded as U+FFFD. *)
Definition encodeRune (r : rune) : string :=
  let r :=
    if (r <? 0) || (1114111 <? r) || ((55296 <=? r) && (r <=? 57343))
    then 65533 else r in
  if r <=? 127 then chr r
  else if r <=? 2047 then
    chr (Z.lor 192 (Z.shiftr r 6)) +:+ chr (Z.lor 128 (Z.land r 63))
  else if r <=? 65535 then
    chr (Z.lor 224 (Z.shiftr r 12))
    +:+ chr (Z.lor 128 (Z.land (Z.shiftr r 6) 63))
    +:+ chr (Z.lor 128 (Z.land r 63))
  else
    chr (Z.lor 240 (Z.shiftr r 18))
    +:+ chr (Z.lor 128 (Z.land (Z.shiftr r 12) 63))
    +:+ chr (Z.lor 128 (Z.land (Z.shiftr r 6) 63))
    +:+ chr (Z.lor 128 (Z.land r 63)).

(** [utf8.RuneLen] *)
Definition RuneLen (r : rune) : Z :=
  if r <? 0 then -1
  else if r <=? 127 then 1
  else if r <=? 2047 then 2
  else if (55296 <=? r) && (r <=? 57343) then -1
  else if r <=? 65535 then 3
  else if r <=? 1114111 then 4
  else -1.

(** The verb [%d] of [fmt]. *)
Definition fmt_d (z : Z) : string := NilZero.string_of_int (Z.to_int z).

Definition deltaPos (from to : pos) : string :=
  (if line from <? line to then
     esc +:+ "[" +:+ fmt_d (line to - line from) +:+ "B"
   else if line from >? line to then
     esc +:+ "[" +:+ fmt_d (line from - line to) +:+ "A"
   else "")
  +:+
  (if pos_col from <? pos_col to then
     esc +:+ "[" +:+ fmt_d (pos_col to - pos_col from) +:+ "C"
   else if pos_col from >? pos_col to then
     esc +:+ "[" +:+ fmt_d (pos_col from - pos_col to) +:+ "D"
   else "").

(** ** The screen writer *)

(** An [os.File] open on the terminal: the bytes it has taken, the number
    of calls of [Write] so far, and what the calls still to come do.  A
    failing call takes the first [n] bytes and returns the error. *)
Inductive writeOutcome :=
  | WriteOk
  | WriteErr (n : nat) (e : error).

Record File := mkFile {
  written : string;
  calls : nat;
  faults : list writeOutcome
}.

Definition File_Write (f : File) (bytes : string) : File * option error :=
  match faults f with
  | [] => (mkFile (written f +:+ bytes) (S (calls f)) [], None)
  | WriteOk :: rest => (mkFile (written f +:+ bytes) (S (calls f)) rest, None)
  | WriteErr n e :: rest =>
      (mkFile (written f +:+ substring 0 n bytes) (S (calls f)) rest, Some e)
  end.

Record writer := mkWriter { file : File; oldBuf : buffer }.


(** The escape sequence of [fmt.Fprintf(bytesBuf, "\033[m\033[%sm", c.attr)]. *)
Definition sgr (a : string) : string :=
  esc +:+ "[m" +:+ esc +:+ "[" +:+ a +:+ "m".

(** The body of the loop over the cells of a line; the state is the bytes
    gathered so far and the attribute in force, [attr]. *)
Definition commitCell (st : string * string) (c : cell) : string * string :=
  let '(out, attr) := st in
  let '(out, attr) :=
    if (cell_width c >? 0) && negb (String.eqb (cell_attr c) attr)
    then (out +:+ sgr (cell_attr c), cell_attr c)
    else (out, attr) in
  (out +:+ encodeRune (cell_rune c), attr).

Definition commitLine (st : string * string) (l : list cell) : string * string :=
  fold_left commitCell l st.

(** The start of line number [i]: a line feed, unless it is the first. *)
Definition lineStart (i : nat) (st : string * string) : string * string :=
  if (0 <? i)%nat then (fst st +:+ chr 10, snd st) else st.

(** The loop over [buf.cells], from line number [i] on. *)
Fixpoint commitLines (i : nat) (ls : list (list cell)) (st : string * string)
  : string * string :=
  match ls with
  | [] => st
  | l :: ls' => commitLines (S i) ls' (commitLine (lineStart i st) l)
  end.

(** What [commitBuffer] has in [bytesBuf] before the loop over the cells. *)
Definition commitHead (oldBuf : buffer) : string :=
  let pLine := line (dot oldBuf) in
  (if pLine >? 0 then esc +:+ "[" +:+ fmt_d pLine +:+ "A" else "")
  +:+ chr 13 +:+ esc +:+ "[J".

(** What [commitBuffer] adds to [bytesBuf] after the loop over the cells. *)
Definition commitTail (attr : string) (buf : buffer) : string :=
  (if negb (String.eqb attr "") then esc +:+ "[m" else "")
  +:+ deltaPos (cursor buf) (dot buf).


(** The bytes that [commitBuffer] hands to the one call of [Write]. *)
Definition commitBytes (oldBuf buf : buffer) : string :=
  let '(out, attr) := commitLines 0 (cells buf) (commitHead oldBuf, "") in
  out +:+ commitTail attr buf.

Definition commitBuffer (w : writer) (buf : buffer) : writer * option error :=
  let '(f, err) := File_Write (file w) (commitBytes (oldBuf w) buf) in
  match err with
  | Some e => ({| file := f; oldBuf := oldBuf w |}, Some e)
  | None => ({| file := f; oldBuf := buf |}, None)
  end.

(** ** The line buffer of [refresh] *)

(** The fields of the editor state that [refresh] reads while it builds the
    line buffer (the types are declared in other files of the package). *)
Record token := mkToken { Typ : Z; Val : text }.

Record candidatePart := mkPart { part_text : text; completed : bool }.

Record candidate := mkCandidate { cand_text : text; parts : list candidatePart }.

Record completion := mkCompletion {
  start : Z; end_ : Z; typ : Z;
  candidates : list candidate;
  current : Z
}.

Record editorState := mkEditorState {
  tokens : list token;
  prompt : text;
  es_dot : Z;
  es_completion : option completion
}.

(** The attribute strings and the attribute table of the package. *)
Class Attrs := {
  attrForPrompt : string;
  attrForCompleted : string;
  attrForType : Z -> string
}.

(** [l[i]] for an [int] index: a panic when out of range. *)
Definition index {A} (l : list A) (i : Z) : option A :=
  if i <? 0 then None else l !! Z.to_nat i.

Section Refresh.
Context `{WidthOracle} `{Attrs}.

(** The loop over the parts of the selected candidate. *)
Fixpoint writeParts (ps : list candidatePart) (comp : completion) (b : buffer)
  : option buffer :=
  match ps with
  | [] => Some b
  | part :: ps' =>
      let attr := attrForType (typ comp) in
      let attr := if completed part then attr +:+ attrForCompleted else attr in
      b ← writes (part_text part) attr b;
      writeParts ps' comp b
  end.

(** The state of the loops over the tokens: the buffer [b], the byte
    counter [i] and the flag [suppress]. *)
Definition lineState : Type := buffer * Z * bool.

(** The body of the loop over the runes of a token. *)
Definition refreshRune (bs : editorState) (tok : token) (st : lineState)
  (r : rune) : option lineState :=
  let '(b, i, suppress) := st in
  let comp := es_completion bs in
  silent ←
    (if suppress then
       match comp with
       | Some comp => Some (i <? end_ comp)
       | None => None
       end
     else Some false);
  b ← (if silent : bool then Some b else write r (attrForType (Typ tok)) b);
  let i := i + RuneLen r in
  '(b, suppress) ←
    match comp with
    | Some comp =>
        if negb (current comp =? -1) && (i =? start comp) then
          cand ← index (candidates comp) (current comp);
          b ← writeParts (parts cand) comp b;
          Some (b, true)
        else Some (b, suppress)
    | None => Some (b, suppress)
    end;
  let b := if es_dot bs =? i then with_dot b (cursor b) else b in
  Some (b, i, suppress).

Fixpoint refreshToken (bs : editorState) (tok : token) (rs : text)
  (st : lineState) : option lineState :=
  match rs with
  | [] => Some st
  | r :: rs' => st ← refreshRune bs tok st r; refreshToken bs tok rs' st
  end.

Fixpoint refreshTokens (bs : editorState) (toks : list token)
  (st : lineState) : option lineState :=
  match toks with
  | [] => Some st
  | tok :: toks' =>
      st ← refreshToken bs tok (Val tok) st; refreshTokens bs toks' st
  end.

(** [refresh] from [b := newBuffer(width)] to the end of the loop over the
    tokens; [cols] is the column count of the terminal, the [width] that
    [refresh] samples. *)
Definition refreshLine (cols : Z) (bs : editorState) : option buffer :=
  b ← newBuffer cols;
  b ← writes (prompt bs) attrForPrompt b;
  let b := if col b * 2 <? width b then with_indent b (col b) else b in
  let i := 0 in
  let b := if es_dot bs =? 0 then with_dot b (cursor b) else b in
  '(b, _, _) ← refreshTokens bs (tokens bs) (b, i, false);
  Some b.
End Refresh.

(** Sample attributes for concrete runs. *)
Definition sampleAttrs : Attrs := {|
  attrForPrompt := "";
  attrForCompleted := ";4";
  attrForType t := if t =? 0 then "" else "3" +:+ fmt_d t
|}.

(** The runes of the cells of a line. *)
Definition lineRunes (l : list cell) : list rune := map cell_rune l.

(** The invariant of a buffer of width [W] and indent [k] under [write]:
    there is a last line, [col] is its summed width, and no line is wider
    than [W]. *)
Definition buffer_ok (W k : Z) (b : buffer) : Prop :=
  width b = W /\ indent b = k /\
  exists lines l,
    cells b = lines ++ [l] /\ col b = lineWidth l /\
    Forall (fun l => lineWidth l <= W) (lines ++ [l]).

(** The editor state without its completion. *)
Definition noCompletion (bs : editorState) : editorState :=
  mkEditorState (tokens bs) (prompt bs) (es_dot bs) None.

(** ** Inputs of the parameter loop of the CSI branch *)

(** The runes on which the loop goes round again: digits and [';']. *)
Definition isDigit (r : rune) : bool := (48 <=? r) && (r <=? 57).

Definition isParamRune (r : rune) : bool := (r =? 59) || isDigit r.

(** [nums] after the rounds of the loop on the runes [rs]. *)
Definition csiParams (rs : list rune) (nums : list Z) : list Z :=
  fold_left csiParam rs nums.

(** What the rounds on the digits [ds] make of a parameter that is [n]. *)
Definition accumulate (n : Z) (ds : list rune) : Z :=
  fold_left (fun a d => wrap64 (a * 10 + (d - 48))) ds n.

(** The number that the digits [ds] write in base ten. *)
Definition decimal (ds : list rune) : Z :=
  fold_left (fun a d => a * 10 + (d - 48)) ds 0.

(** Groups of digits, separated by [';']. *)
Definition joinParams (gs : list (list rune)) : list rune :=
  match gs with
  | [] => []
  | g :: gs' => g ++ flat_map (fun g' => 59 :: g') gs'
  end.

(** The modifier bits that the three low bits of [n] stand for in xterm's
    encoding: bit 0 Shift, bit 1 Alt, bit 2 Ctrl. *)
Definition modBits `{KeyNames} (n : Z) : Z :=
  Z.lor (Z.lor (if Z.testbit n 0 then Shift else 0)
               (if Z.testbit n 1 then Alt else 0))
        (if Z.testbit n 2 then Ctrl else 0).

(** ** More of the cell buffer and of the screen writer *)

(** [b.extend(b2)]; a nil [b2] is [None], and a [b2] without lines is one
    whose [cells] are nil (the buffers that [newBuffer] makes have a line). *)
Definition extend (b : buffer) (b2 : option buffer) : buffer :=
  match b2 with
  | Some b2 =>
      match cells b2 with
      | [] => b
      | _ :: _ => with_cells b (cells b ++ cells b2) (col b2)
      end
  | None => b
  end.

(** [b.line()] *)
Definition buffer_line (b : buffer) : Z := len (cells b) - 1.

Section Padding.
Context `{WidthOracle}.

(** [b.writePadding(w, attr)]; [strings.Repeat] panics on a negative
    count. *)
Definition writePadding (w : Z) (attr : string) (b : buffer) : option buffer :=
  if w <? 0 then None
  else writes (replicate (Z.to_nat w) 32) attr b.

(** The cells that a sequence of calls of [write] makes: one for each rune
    that is printable and not a line feed. *)
Definition cellsOf (ws : list (rune * string)) : list cell :=
  flat_map (fun '(r, a) =>
              if (r =? 10) || negb (IsPrint r) then []
              else [mkCell r (byte (wcwidth r)) a]) ws.
End Padding.


(** The code points of a line, and of lines separated by line feeds. *)
Definition plainLine (l : list cell) : string :=
  foldr (fun c s => encodeRune (cell_rune c) +:+ s) "" l.

Definition plainLines (ls : list (list cell)) : string :=
  match ls with
  | [] => ""
  | l :: ls' =>
      plainLine l +:+ foldr (fun l' s => chr 10 +:+ plainLine l' +:+ s) "" ls'
  end.

(** The bytes of the text of the tokens, as [refresh] counts them. *)
Definition textBytes (toks : list token) : Z :=
  foldr (fun tok n => foldr (fun r m => RuneLen r + m) 0 (Val tok) + n) 0 toks.

(** The completion, when there is one, selects no candidate or one of the
    list. *)
Definition selection_ok (bs : editorState) : Prop :=
  forall comp, es_completion bs = Some comp ->
    current comp = -1 \/ 0 <= current comp < len (candidates comp).

(** ** The rest of [refresh] *)

(** The names of other files that the rest of [refresh] uses: [wcwidths]
    (the display width of a string), [util.CeilDiv], four attributes and
    the modes. *)
Class RefreshNames := {
  wcwidths : text -> Z;
  CeilDiv : Z -> Z -> Z;
  attrForRprompt : string;
  attrForMode : string;
  attrForTip : string;
  attrForCurrentCompletion : string;
  ModeInsert : Z;
  ModeCommand : Z;
  ModeCompleting : Z
}.

(** The fields of the editor state that the rest of [refresh] reads. *)
Record editorRest := mkEditorRest {
  rprompt : text;
  mode : Z;
  tips : list text
}.

(** A loop over [l] whose body is [f]. *)
Fixpoint forEach {A} (f : A -> buffer -> option buffer) (l : list A)
  (b : buffer) : option buffer :=
  match l with
  | [] => Some b
  | x :: l' => b' ← f x b; forEach f l' b'
  end.

(** The values of [i] in [for i := 0; i < n; i++]. *)
Definition upto (n : Z) : list Z := seqZ 0 n.

(** [strings.Join(tips, ", ")] *)
Definition joinTips (ts : list text) : text :=
  match ts with
  | [] => []
  | t :: ts' => t ++ flat_map (fun t' => 44 :: 32 :: t') ts'
  end.

(** ["-- COMMAND --"] and ["-- COMPLETING --"] *)
Definition commandLabel : text :=
  [45; 45; 32; 67; 79; 77; 77; 65; 78; 68; 32; 45; 45].

Definition completingLabel : text :=
  [45; 45; 32; 67; 79; 77; 80; 76; 69; 84; 73; 78; 71; 32; 45; 45].

Definition colMargin : Z := 2.

Section RefreshRest.
Context `{WidthOracle} `{Attrs} `{RefreshNames}.

(** The right prompt, written on the line buffer after the text. *)
Definition refreshRprompt (rp : text) (b : buffer) : option buffer :=
  let padding := width b - 1 - col b - wcwidths rp in
  if padding >=? 1 then
    b ← writePadding padding "" b;
    writes rp attrForRprompt b
  else Some b.

(** [bufMode]: nil in insert mode. *)
Definition refreshMode (cols : Z) (m : Z) : option (option buffer) :=
  if negb (m =? ModeInsert) then
    b ← newBuffer cols;
    b ← (if m =? ModeCommand then writes commandLabel attrForMode b
         else if m =? ModeCompleting then writes completingLabel attrForMode b
         else Some b);
    Some (Some b)
  else Some None.

(** [bufTips]: nil without tips. *)
Definition refreshTips (cols : Z) (ts : list text) : option (option buffer) :=
  if len ts >? 0 then
    b ← newBuffer cols;
    b ← writes (joinTips ts) attrForTip b;
    Some (Some b)
  else Some None.

(** The first loop over the candidates: the width of a column. *)
Definition colWidthOf (cands : list candidate) : Z :=
  fold_left (fun colWidth cand =>
               let w := wcwidths (cand_text cand) in
               if colWidth <? w then w else colWidth)
            cands 0.

(** The number of columns; the divisor is at least [colMargin]. *)
Definition completionCols (b : buffer) (colWidth : Z) : Z :=
  let cols := Z.quot (width b + colMargin) (colWidth + colMargin) in
  if cols =? 0 then 1 else cols.

(** The body of the loop over [j], in row [i]. *)
Definition completionCell (comp : completion) (colWidth lines i j : Z)
  (b : buffer) : option buffer :=
  let cands := candidates comp in
  let k := j * lines + i in
  if k >=? len cands then Some b
  else
    let attr := if k =? current comp then attrForCurrentCompletion else "" in
    cand ← index cands k;
    let text := cand_text cand in
    b ← writes text attr b;
    b ← writePadding (colWidth - wcwidths text) attr b;
    writePadding colMargin "" b.

(** The body of the loop over [i]. *)
Definition completionRow (comp : completion) (colWidth lines cols i : Z)
  (b : buffer) : option buffer :=
  b ← (if i >? 0 then newline b else Some b);
  forEach (completionCell comp colWidth lines i) (upto cols) b.

(** [bufCompletion], for a completion that is not nil. *)
Definition refreshCompletion (termCols : Z) (comp : completion)
  : option buffer :=
  b ← newBuffer termCols;
  let cands := candidates comp in
  let colWidth := colWidthOf cands in
  let cols := completionCols b colWidth in
  let lines := CeilDiv (len cands) cols in
  forEach (completionRow comp colWidth lines cols) (upto lines) b.

(** [refresh], with [termCols] the column count of the terminal. *)
Definition refresh (w : writer) (termCols : Z) (bs : editorState)
  (more : editorRest) : option (writer * option error) :=
  bufLine ← refreshLine termCols bs;
  bufLine ← refreshRprompt (rprompt more) bufLine;
  bufMode ← refreshMode termCols (mode more);
  bufTips ← refreshTips termCols (tips more);
  bufCompletion ←
    match es_completion bs with
    | Some comp => b ← refreshCompletion termCols comp; Some (Some b)
    | None => Some None
    end;
  let buf := extend (extend (extend bufLine bufMode) bufTips) bufCompletion in
  Some (commitBuffer w buf).
End RefreshRest.

(** The candidates that the loops of [bufCompletion] write, in the order in
    which they write them: row by row, in each row the index
    [j * lines + i] of each column [j], unless it is past the last
    candidate. *)
Definition gridOrder (lines cols n : Z) : list Z :=
  flat_map (fun i =>
              flat_map (fun j =>
                          let k := j * lines + i in
                          if k >=? n then [] else [k])
                       (upto cols))
           (upto lines).

(** Sample names for concrete runs: [wcwidths] sums [wcwidth] of the sample
    width oracle, [CeilDiv] rounds the quotient up. *)
Definition sampleNames : RefreshNames := {|
  wcwidths s := foldr (fun r n => @wcwidth sampleWidths r + n) 0 s;
  CeilDiv a b := (a + b - 1) / b;
  attrForRprompt := "7";
  attrForMode := "1";
  attrForTip := "";
  attrForCurrentCompletion := "7";
  ModeInsert := 0;
  ModeCommand := 1;
  ModeCompleting := 2
|}.

(** A buffer as [newBuffer] and [write] make it: a width that is not
    negative, and a last line whose summed width is [col]. *)
Definition buffer_shape (b : buffer) : Prop :=
  0 <= width b /\
  exists lines l, cells b = lines ++ [l] /\ col b = lineWidth l.

Section Entries.
Context `{WidthOracle} `{RefreshNames}.

(** The summed widths of the runes of a text. *)
Definition textWidth (s : text) : Z := foldr (fun r n => wcwidth r + n) 0 s.

(** The runes of [s], each written with the attribute [a]. *)
Definition styled (a : string) (s : text) : list (rune * string) :=
  map (fun r => (r, a)) s.

(** What the loops of [bufCompletion] write for the candidate of index [k]:
    its text and the padding to the width of the column, with the attribute
    of the candidate, then the margin without attribute. *)
Definition entryWrites (comp : completion) (colWidth k : Z)
  : list (rune * string) :=
  match index (candidates comp) k with
  | Some cand =>
      let attr := if k =? current comp then attrForCurrentCompletion else "" in
      styled attr (cand_text cand)
      ++ styled attr (replicate (Z.to_nat (colWidth - wcwidths (cand_text cand))) 32)
      ++ styled "" (replicate (Z.to_nat colMargin) 32)
  | None => []
  end.
End Entries.

(** What the loops of [bufCompletion] keep of the buffer: its shape, no
    indent and the width of the terminal. *)
Definition menu_ok (W : Z) (b : buffer) : Prop :=
  buffer_shape b /\ indent b = 0 /\ width b = W.

(** * Properties of the key decoder *)

Section DecoderFacts.
Context `{KeyNames}.

(** The loop of the CSI branch, as the source writes it: read a rune; on
    an error leave; turn the timeout off; leave the loop on a rune that is
    neither a digit nor [';'], else update [nums] and go round again. *)
Lemma readCSI_eq (rd : reader) (nums : list Z) :
  readCSI (stream rd) (Timeout rd) nums =
  let '(o, rd') := ReadRune rd in
  match o with
  | Fail e =>
      if error_eqb e async_Timeout then (mkKey 91 Alt, None, rd')
      else (ZeroKey, Some e, rd')
  | Rune r =>
      let rd' := setTimeout (-1) rd' in
      if negb (r =? 59) && ((r <? 48) || (57 <? r)) then
        let '(k, e) := parseCSI nums r in (k, e, rd')
      else readCSI (stream rd') (Timeout rd') (csiParam nums r)
  end.
Proof.
  destruct rd as [tmo [|[r|e] rest]]; unfold ReadRune; simpl; reflexivity.
Qed.

(** [nums[cur]] is in range where the loop updates it. *)
Lemma csiParam_digit (nums : list Z) (r : rune) :
  r <> 59 ->
  exists front n,
    (if len nums =? 0 then nums ++ [0] else nums) = front ++ [n]
    /\ csiParam nums r = front ++ [wrap64 (n * 10 + (r - 48))].
Proof.
  intros Hr. unfold csiParam, len.
  destruct (Z.eqb_spec r 59) as [|_]; [contradiction|].
  destruct (nums) as [|a nums'] using rev_ind.
  - exists [], 0. simpl. split; reflexivity.
  - rewrite length_app; simpl length.
    replace (Z.of_nat (length nums' + 1) =? 0) with false
      by (symmetry; apply Z.eqb_neq; lia).
    exists nums', a. split; [reflexivity|].
    rewrite length_app; simpl length.
    replace (length nums' + 1 - 1)%nat with (length nums' + 0)%nat by lia.
    rewrite alter_app_r. reflexivity.
Qed.

Lemma xtermModify_cases (k : Key) (m : Z) :
  snd (xtermModify k m) = None
  \/ xtermModify k m = (ZeroKey, Some BadEscSeq).
Proof.
  unfold xtermModify. repeat case_match; auto.
Qed.

Lemma parseCSI_cases (nums : list Z) (last : rune) :
  snd (parseCSI nums last) = None
  \/ parseCSI nums last = (ZeroKey, Some BadEscSeq).
Proof.
  unfold parseCSI.
  repeat (case_match; auto using xtermModify_cases).
Qed.

(** With two parameters and final byte ['~'], a parameter of the keypad
    table gives the table's key, modified by the second parameter. *)
Lemma parseCSI_keypad_two (n m : Z) (r : rune) :
  lookup_table n keyByNum0 = Some r ->
  parseCSI [n; m] 126 = xtermModify (mkKey r 0) m.
Proof.
  intros Hn. unfold parseCSI.
  change (len [n; m]) with 2. change (at_ [n; m] 0) with n.
  change (at_ [n; m] 1) with m.
  replace (lookup_table 126 keyByLast) with (@None rune) by reflexivity.
  rewrite Hn. reflexivity.
Qed.

(** Whatever the loop of the CSI branch returns with an error is
    [ZeroKey]. *)
Lemma readCSI_error_key (pending : list outcome) :
  forall tmo nums k e rd',
    readCSI pending tmo nums = (k, Some e, rd') -> k = ZeroKey.
Proof.
  induction pending as [|o rest IH]; intros tmo nums k e rd'; simpl.
  - intros [= <- _ _]. reflexivity.
  - destruct o as [r|e0].
    + case_match.
      * destruct (parseCSI_cases nums r) as [Hn|Hb].
        -- destruct (parseCSI nums r) as [k0 e1]. simpl in Hn. subst e1.
           intros [= _ ?]. 
        -- rewrite Hb. intros [= <- _ _]. reflexivity.
      * apply IH.
    + case_match; intros [= <- ? ?]; try reflexivity; discriminate.
Qed.

(** The loop of the CSI branch leaves the timeout as it found it, or
    at [-1]. *)
Lemma readCSI_timeout (pending : list outcome) :
  forall tmo nums,
    Timeout (snd (readCSI pending tmo nums)) = -1
    \/ Timeout (snd (readCSI pending tmo nums)) = tmo.
Proof.
  induction pending as [|o rest IH]; intros tmo nums; simpl; auto.
  destruct o as [r|e0].
  - case_match.
    + destruct (parseCSI nums r); simpl; auto.
    + destruct (IH (-1) (csiParam nums r)); auto.
  - case_match; simpl; auto.
Qed.
End DecoderFacts.

Section DecoderClaims.
Context `{KeyNames}.

(** Three sequences decoded as the terminal means them: a lone ESC followed
    by silence, Ctrl+Up, and F1 in the G3 style. *)
Example readKey_bare_esc :
  readKey (mkReader (-1) [Rune 27; Fail async_Timeout])
  = (mkKey 91 Ctrl, None, mkReader (-1) []).
Proof. reflexivity. Qed.

Example readKey_ctrl_up :
  readKey (mkReader (-1) (runes [27; 91; 49; 59; 53; 65]))
  = (mkKey Up Ctrl, None, mkReader (-1) []).
Proof. reflexivity. Qed.

Example readKey_g3_f1 :
  readKey (mkReader (-1) (runes [27; 79; 80]))
  = (mkKey F1 0, None, mkReader (-1) []).
Proof. reflexivity. Qed.

(** ESC followed by a rune that opens no sequence: the key returned holds
    the rune read first, [0x1b], with Alt. *)
Example readKey_esc_letter :
  readKey (mkReader (-1) (runes [27; 120]))
  = (mkKey 27 Alt, None, mkReader (-1) []).
Proof. reflexivity. Qed.

(** C1 (the code departs from the claim). The sequence
    [0x1b '[' '2' '7' ';' '2' ';' '1' '3' '~'] is parsed into the three
    parameters [27; 2; 13] and then rejected: [readKey] returns [ZeroKey]
    with [BadEscSeq], not Enter with Shift.  The first test of [parseCSI]
    rejects every list of three parameters, so the branch for
    [nums[0] = 27] is never reached. *)
Theorem readKey_three_params_rejected :
  (forall tmo rest,
     readKey (mkReader tmo (runes [27; 91; 50; 55; 59; 50; 59; 49; 51; 126] ++ rest))
     = (ZeroKey, Some BadEscSeq, mkReader (-1) rest))
  /\ (forall a b c last, parseCSI [a; b; c] last = (ZeroKey, Some BadEscSeq)).
Proof.
  split; reflexivity.
Qed.

(** C2 (the code departs from the claim). The sequence [0x1b '[' '3' '~']
    (Delete on most terminals) is parsed into the single parameter [3] and
    then rejected: [readKey] returns [ZeroKey] with [BadEscSeq].  The
    first test of [parseCSI] rejects every list of one parameter, so the
    keypad table is only reached with two parameters. *)
Theorem readKey_one_param_rejected :
  (forall tmo rest,
     readKey (mkReader tmo (runes [27; 91; 51; 126] ++ rest))
     = (ZeroKey, Some BadEscSeq, mkReader (-1) rest))
  /\ (forall n last, parseCSI [n] last = (ZeroKey, Some BadEscSeq)).
Proof.
  split; reflexivity.
Qed.


(** The body of the ESC branch leaves the timeout as it found it, or at
    [-1]; the deferred assignment of [readKey] then sets it to [-1]. *)
Lemma readEsc_timeout (r : rune) (rd : reader) :
  Timeout (snd (readEsc r rd)) = -1
  \/ Timeout (snd (readEsc r rd)) = Timeout rd.
Proof.
  unfold readEsc, ReadRune.
  destruct rd as [tmo [|[r2|e] rest]]; cbn [stream Timeout].
  - simpl. auto.
  - destruct (r2 =? 91); [apply readCSI_timeout|].
    destruct (r2 =? 79); [|simpl; auto].
    destruct rest as [|[r3|e] rest']; cbn [stream Timeout].
    + simpl. auto.
    + destruct (lookup_table r3 g3Seq); simpl; auto.
    + destruct (error_eqb e async_Timeout); simpl; auto.
  - destruct (error_eqb e async_Timeout); simpl; auto.
Qed.

(** C8. Whatever the stream, [readKey] returns (it is a total function
    of the outcomes still to come), and when the first rune read is ESC
    the timeout of the byte source is [-1] afterwards, on every path out
    of the ESC branch.  On the other paths the timeout is not touched, so
    a reader that blocks before the call blocks after it. *)
Theorem readKey_restores_timeout (rd : reader) :
  (forall rest, stream rd = Rune 27 :: rest ->
     Timeout (snd (readKey rd)) = -1)
  /\ (Timeout rd < 0 -> Timeout (snd (readKey rd)) < 0)
  /\ (Timeout (snd (readKey rd)) = -1
      \/ Timeout (snd (readKey rd)) = Timeout rd).
Proof.
  assert (Hesc : forall tmo rest,
    Timeout (snd (readKey (mkReader tmo (Rune 27 :: rest)))) = -1).
  { intros tmo rest. unfold readKey, ReadRune. cbn [stream Timeout].
    destruct (readEsc 27 _) as [[k e] rd']. reflexivity. }
  assert (Hany : Timeout (snd (readKey rd)) = -1
                 \/ Timeout (snd (readKey rd)) = Timeout rd).
  { destruct rd as [tmo [|[r|e] rest]]; [right; reflexivity| |right; reflexivity].
    destruct (Z.eq_dec r 27) as [->|Hr]; [left; apply Hesc|].
    right. unfold readKey, ReadRune. cbn [stream Timeout].
    repeat case_match; try reflexivity; congruence. }
  split; [|split].
  - intros rest Hs. destruct rd as [tmo s]. simpl in Hs. subst s. apply Hesc.
  - intros Hneg. destruct Hany as [-> | ->]; lia.
  - exact Hany.
Qed.

(** C10. Provided [ZeroKey] is the zero value of [Key] (what a return
    without operands yields when the first read fails), every return of
    [readKey] with an error carries [ZeroKey]; hence a key other than
    [ZeroKey] only comes with a nil error. *)
Theorem readKey_error_key (rd : reader) :
  ZeroKey = mkKey 0 0 ->
  (forall k e rd', readKey rd = (k, Some e, rd') -> k = ZeroKey)
  /\ (forall k e rd', readKey rd = (k, e, rd') -> k <> ZeroKey -> e = None).
Proof.
  intros Hz.
  assert (Herr : forall k e rd', readKey rd = (k, Some e, rd') -> k = ZeroKey).
  { intros k e rd'. unfold readKey, ReadRune.
    destruct rd as [tmo [|[r|e0] rest]]; cbn [stream Timeout].
    - intros [= <- _ _]. symmetry. exact Hz.
    - destruct (Z.eq_dec r 27) as [->|Hr].
      + destruct (readEsc 27 _) as [[k1 e1] rd1] eqn:Hesc.
        intros [= <- -> _]. revert Hesc. unfold readEsc, ReadRune.
        cbn [stream Timeout setTimeout].
        destruct rest as [|[r2|e2] rest2].
        * intros [= <- _ _]. reflexivity.
        * destruct (r2 =? 91); [apply readCSI_error_key|].
          destruct (r2 =? 79); [|intros [=]].
          cbn [stream Timeout].
          destruct rest2 as [|[r3|e3] rest3].
          -- intros [= <- _ _]. reflexivity.
          -- destruct (lookup_table r3 g3Seq); intros [= <- _ _]; reflexivity.
          -- destruct (error_eqb e3 async_Timeout); intros [= <- ? ?];
               reflexivity || discriminate.
        * destruct (error_eqb e2 async_Timeout); intros [= <- ? ?];
            reflexivity || discriminate.
      + repeat case_match; intros [=]; congruence.
    - intros [= <- _ _]. symmetry. exact Hz. }
  split; [exact Herr|].
  intros k e rd' Hrun Hk. destruct e as [e|]; [|reflexivity].
  exfalso. apply Hk. eapply Herr. exact Hrun.
Qed.
End DecoderClaims.

(** A reader with a timeout left over, on the bytes of Ctrl+Up. *)
Lemma readKey_restores_timeout_witness :
  stream (mkReader 5 (runes [27; 91; 49; 59; 53; 65]))
    = Rune 27 :: runes [91; 49; 59; 53; 65]
  /\ Timeout (snd (@readKey sampleKeys
                     (mkReader 5 (runes [27; 91; 49; 59; 53; 65])))) = -1.
Proof.
  split; [reflexivity|].
  apply (proj1 (@readKey_restores_timeout sampleKeys
                  (mkReader 5 (runes [27; 91; 49; 59; 53; 65])))
               (runes [91; 49; 59; 53; 65])).
  reflexivity.
Defined.

(** A CSI sequence with one parameter and an unknown final byte. *)
Lemma readKey_error_key_witness :
  @ZeroKey sampleKeys = mkKey 0 0
  /\ @readKey sampleKeys (mkReader (-1) (runes [27; 91; 49; 122]))
     = (mkKey 0 0, Some BadEscSeq, mkReader (-1) [])
  /\ mkKey 0 0 = @ZeroKey sampleKeys.
Proof.
  split; [reflexivity|]. split; [reflexivity|].
  apply (proj1 (@readKey_error_key sampleKeys
                  (mkReader (-1) (runes [27; 91; 49; 122])) eq_refl)
               (mkKey 0 0) BadEscSeq (mkReader (-1) [])).
  reflexivity.
Defined.


(** * Properties of the cell buffer *)

Lemma lineWidth_app (l : list cell) (c : cell) :
  lineWidth (l ++ [c]) = lineWidth l + cell_width c.
Proof.
  induction l as [|c' l IH]; simpl; lia.
Qed.

Lemma lineWidth_pad (n : nat) : lineWidth (replicate n space) = Z.of_nat n.
Proof.
  induction n as [|n IH]; [reflexivity|].
  cbn [replicate lineWidth foldr]. fold (lineWidth (replicate n space)).
  rewrite IH. simpl cell_width. lia.
Qed.

Lemma appendCell_last (b : buffer) (lines : list (list cell)) (l : list cell)
  (c : cell) :
  cells b = lines ++ [l] ->
  appendCell c b
  = Some (with_cells b (lines ++ [l ++ [c]]) (col b + cell_width c)).
Proof.
  intros Hc. unfold appendCell. rewrite Hc, length_app. simpl length.
  replace (length lines + 1)%nat with (S (length lines)) by lia.
  rewrite list_lookup_middle by reflexivity. cbn [mbind option_bind].
  rewrite insert_app_r_alt by lia. rewrite Nat.sub_diag. reflexivity.
Qed.

Lemma times_appendCell (n : nat) :
  forall (b : buffer) lines l,
    cells b = lines ++ [l] ->
    times n (appendCell space) b
    = Some (with_cells b (lines ++ [l ++ replicate n space])
                       (col b + Z.of_nat n)).
Proof.
  induction n as [|n IH]; intros b lines l Hc.
  - simpl. rewrite app_nil_r, Z.add_0_r, <- Hc. destruct b; reflexivity.
  - cbn [times]. rewrite (appendCell_last b lines l space Hc).
    cbn [mbind option_bind].
    rewrite (IH _ lines (l ++ [space])) by reflexivity.
    unfold with_cells; simpl. f_equal. f_equal.
    + lia.
    + rewrite <- app_assoc. reflexivity.
Qed.

Lemma newline_eq (b : buffer) :
  0 <= width b ->
  newline b
  = Some (with_cells b (cells b ++ [replicate (Z.to_nat (indent b)) space])
                     (Z.max 0 (indent b))).
Proof.
  intros Hw. unfold newline, appendLine.
  replace (width b <? 0) with false by (symmetry; apply Z.ltb_ge; lia).
  cbn [mbind option_bind]. cbn [with_cells indent].
  destruct (Z.gtb_spec (indent b) 0) as [Hk|Hk].
  - rewrite (times_appendCell _ _ (cells b) []) by reflexivity.
    unfold with_cells; simpl. f_equal. f_equal. lia.
  - replace (Z.to_nat (indent b)) with 0%nat by lia.
    unfold with_cells; simpl. f_equal. f_equal. lia.
Qed.

Lemma byte_bounds (wd : Z) : 0 <= wd -> 0 <= byte wd <= wd.
Proof.
  intros Hwd. unfold byte. split.
  - apply Z.mod_pos_bound. lia.
  - apply Z.mod_le; lia.
Qed.

Section BufferFacts.
Context `{WidthOracle}.

(** The three branches of [write] on a printable rune. *)
Lemma write_printable (b : buffer) (r : rune) (a : string)
  (lines : list (list cell)) (l : list cell) :
  r <> 10 -> IsPrint r = true -> 0 <= width b ->
  cells b = lines ++ [l] ->
  let wd := wcwidth r in
  let c := mkCell r (byte wd) a in
  let pad := replicate (Z.to_nat (indent b)) space in
  write r a b =
  Some (if col b + wd >? width b then
          with_cells b (lines ++ [l; pad ++ [c]])
                     (Z.max 0 (indent b) + byte wd)
        else if col b + wd =? width b then
          with_cells b (lines ++ [l ++ [c]; pad]) (Z.max 0 (indent b))
        else with_cells b (lines ++ [l ++ [c]]) (col b + byte wd)).
Proof.
  intros Hr Hp Hw Hc wd c pad. unfold write.
  destruct (Z.eqb_spec r 10) as [|_]; [contradiction|].
  rewrite Hp. cbn [negb]. fold wd. fold c.
  destruct (col b + wd >? width b).
  - rewrite (newline_eq b Hw). cbn [mbind option_bind].
    rewrite (appendCell_last _ (lines ++ [l]) pad c)
      by (cbn [with_cells cells]; rewrite Hc; reflexivity).
    unfold with_cells; simpl. rewrite <- app_assoc. reflexivity.
  - destruct (col b + wd =? width b).
    + rewrite (appendCell_last b lines l c Hc). cbn [mbind option_bind].
      rewrite newline_eq by exact Hw.
      unfold with_cells; simpl. rewrite <- app_assoc. reflexivity.
    + rewrite (appendCell_last b lines l c Hc). reflexivity.
Qed.

(** One call of [write] keeps the invariant, when the cell it makes fits
    on a line after the indent. *)
Lemma write_keeps_ok (W k : Z) (b : buffer) (r : rune) (a : string) :
  0 <= k <= W ->
  (r <> 10 -> IsPrint r = true -> 0 <= wcwidth r /\ k + wcwidth r <= W) ->
  buffer_ok W k b ->
  exists b', write r a b = Some b' /\ buffer_ok W k b'.
Proof.
  intros Hk Hfit (HW & Hind & lines & l & Hc & Hcol & Hall).
  destruct (Z.eq_dec r 10) as [->|Hr].
  - (* a line feed *)
    unfold write. simpl (10 =? 10). cbv iota.
    rewrite newline_eq by lia. eexists; split; [reflexivity|].
    unfold buffer_ok, with_cells; simpl. rewrite Hind.
    split; [exact HW|]. split; [reflexivity|].
    exists (cells b), (replicate (Z.to_nat k) space).
    split; [reflexivity|]. rewrite lineWidth_pad. split; [lia|].
    rewrite Hc. apply Forall_app. split; [exact Hall|].
    constructor; [rewrite lineWidth_pad; lia|constructor].
  - destruct (IsPrint r) eqn:Hp.
    + (* a printable rune *)
      destruct (Hfit Hr eq_refl) as [Hwd Hkw].
      pose proof (byte_bounds _ Hwd) as Hb.
      apply Forall_app in Hall as [Hlines Hl].
      apply Forall_inv in Hl.
      rewrite (write_printable b r a lines l Hr Hp) by (exact Hc || lia).
      eexists; split; [reflexivity|].
      rewrite HW, Hind.
      destruct (Z.gtb_spec (col b + wcwidth r) W) as [Hgt|Hle];
        [|destruct (Z.eqb_spec (col b + wcwidth r) W) as [Heq|Hlt]];
        unfold buffer_ok, with_cells; cbn [width indent cells col];
        (split; [exact HW|]); (split; [exact Hind|]).
      * exists (lines ++ [l]), (replicate (Z.to_nat k) space ++ [mkCell r (byte (wcwidth r)) a]).
        rewrite <- app_assoc. split; [reflexivity|].
        rewrite lineWidth_app, lineWidth_pad. cbn [cell_width].
        split; [lia|].
        apply Forall_app. split; [exact Hlines|].
        constructor; [exact Hl|].
        constructor; [|constructor].
        rewrite lineWidth_app, lineWidth_pad. cbn [cell_width]. lia.
      * exists (lines ++ [l ++ [mkCell r (byte (wcwidth r)) a]]),
               (replicate (Z.to_nat k) space).
        rewrite <- app_assoc. split; [reflexivity|].
        rewrite lineWidth_pad. split; [lia|].
        apply Forall_app. split; [exact Hlines|].
        constructor; [rewrite lineWidth_app; cbn [cell_width]; lia|].
        constructor; [rewrite lineWidth_pad; lia|constructor].
      * exists lines, (l ++ [mkCell r (byte (wcwidth r)) a]).
        split; [reflexivity|]. rewrite lineWidth_app. cbn [cell_width].
        split; [lia|].
        apply Forall_app. split; [exact Hlines|].
        constructor; [|constructor].
        rewrite lineWidth_app. cbn [cell_width]. lia.
    + (* dropped *)
      exists b. split.
      * unfold write. destruct (Z.eqb_spec r 10); [contradiction|].
        rewrite Hp. reflexivity.
      * unfold buffer_ok. split; [exact HW|]. split; [exact Hind|].
        exists lines, l. auto.
Qed.

Lemma writeAll_keeps_ok (W k : Z) (ws : list (rune * string)) :
  0 <= k <= W ->
  (forall r a, (r, a) ∈ ws -> r <> 10 -> IsPrint r = true ->
     0 <= wcwidth r /\ k + wcwidth r <= W) ->
  forall b, buffer_ok W k b ->
  exists b', writeAll ws b = Some b' /\ buffer_ok W k b'.
Proof.
  intros Hk. induction ws as [|[r a] ws IH]; intros Hfit b Hok.
  - exists b. split; [reflexivity|exact Hok].
  - destruct (write_keeps_ok W k b r a Hk) as (b1 & Hw1 & Hok1);
      [intros; eapply Hfit; eauto; left|exact Hok|].
    destruct (IH (fun r' a' Hin => Hfit r' a' (list_elem_of_further _ _ _ Hin)) b1 Hok1)
      as (b2 & Hw2 & Hok2).
    exists b2. split; [|exact Hok2].
    cbn [writeAll]. rewrite Hw1. exact Hw2.
Qed.
(** With the widths 0, 1 and 2 of the width oracle and no indent, a buffer
    of at least two columns never overflows. *)
Lemma writeAll_two_columns (W : Z) (ws : list (rune * string)) :
  2 <= W -> (forall r, 0 <= wcwidth r <= 2) ->
  exists b0 b,
    newBuffer W = Some b0 /\ writeAll ws b0 = Some b
    /\ width b = W /\ fits b.
Proof.
  intros HW Hwc. unfold newBuffer.
  replace (W <? 0) with false by (symmetry; apply Z.ltb_ge; lia).
  destruct (writeAll_keeps_ok W 0 ws ltac:(lia)
              (fun r _ _ _ _ => ltac:(specialize (Hwc r); lia))
              (mkBuffer W 0 0 [[]] (mkPos 0 0)))
    as (b & Hrun & Hwb & _ & lines & l & Hc & _ & Hall).
  - unfold buffer_ok; simpl.
    split; [reflexivity|]. split; [reflexivity|].
    exists [], []. split; [reflexivity|]. split; [reflexivity|].
    constructor; [simpl; lia|constructor].
  - exists (mkBuffer W 0 0 [[]] (mkPos 0 0)), b.
    split; [reflexivity|]. split; [exact Hrun|].
    split; [exact Hwb|]. unfold fits. rewrite Hc, Hwb. exact Hall.
Qed.
End BufferFacts.

Section BufferClaims.
Context `{WidthOracle}.

(** C3 (amended). On a fresh buffer of width [W] whose indent is [k],
    with [0 <= k <= W] ([k = 0] unless the composer sets it), every
    sequence of calls of write-rune in which each printable rune has a
    width [w] with [0 <= w] and [k + w <= W] runs without a panic and
    leaves no line with summed cell widths greater than [W]. *)
Theorem write_no_overflow (W k : Z) (ws : list (rune * string)) :
  0 <= k <= W ->
  (forall r a, (r, a) ∈ ws -> r <> 10 -> IsPrint r = true ->
     0 <= wcwidth r /\ k + wcwidth r <= W) ->
  exists b0 b,
    newBuffer W = Some b0
    /\ writeAll ws (with_indent b0 k) = Some b
    /\ width b = W /\ fits b.
Proof.
  intros Hk Hfit. unfold newBuffer.
  replace (W <? 0) with false by (symmetry; apply Z.ltb_ge; lia).
  eexists. 
  destruct (writeAll_keeps_ok W k ws Hk Hfit
              (with_indent (mkBuffer W 0 0 [[]] (mkPos 0 0)) k))
    as (b & Hrun & HW & _ & lines & l & Hc & _ & Hall).
  - unfold buffer_ok, with_indent; simpl.
    split; [reflexivity|]. split; [reflexivity|].
    exists [], []. split; [reflexivity|]. split; [reflexivity|].
    constructor; [simpl; lia|constructor].
  - exists b. split; [reflexivity|]. split; [exact Hrun|].
    split; [exact HW|]. unfold fits. rewrite Hc, HW. exact Hall.
Qed.

(** C4. In write-rune of a printable rune of width [w] at column [c] of a
    buffer of width [W] whose last line is [l]: when [c + w > W] the
    cell goes on a new line, after the indent padding; when [c + w = W]
    the cell is added to [l] and a new line, holding the indent padding,
    follows it, so the cursor is on that new line.  In particular a cell
    of width 2 at column [W - 1] begins a new line, and a cell of width 1
    at column [W - 1] fills the line and is followed by a new line. *)
Theorem write_wrap_rule (b : buffer) (r : rune) (a : string)
  (lines : list (list cell)) (l : list cell) :
  r <> 10 -> IsPrint r = true -> 0 <= width b ->
  cells b = lines ++ [l] ->
  let w := wcwidth r in
  let c := mkCell r (byte w) a in
  let pad := replicate (Z.to_nat (indent b)) space in
  (col b + w > width b ->
     write r a b
     = Some (with_cells b (lines ++ [l; pad ++ [c]])
                        (Z.max 0 (indent b) + byte w)))
  /\ (col b + w = width b ->
     write r a b
     = Some (with_cells b (lines ++ [l ++ [c]; pad]) (Z.max 0 (indent b))))
  /\ (w = 2 -> col b = width b - 1 ->
     write r a b
     = Some (with_cells b (lines ++ [l; pad ++ [c]])
                        (Z.max 0 (indent b) + 2)))
  /\ (w = 1 -> col b = width b - 1 ->
     write r a b
     = Some (with_cells b (lines ++ [l ++ [c]; pad]) (Z.max 0 (indent b)))).
Proof.
  intros Hr Hp Hw Hc w c pad.
  pose proof (write_printable b r a lines l Hr Hp Hw Hc) as Heq.
  cbv zeta in Heq. fold w in Heq. fold c in Heq. fold pad in Heq.
  repeat split.
  - intros Hgt. rewrite Heq.
    replace (col b + w >? width b) with true
      by (symmetry; apply Z.gtb_lt; lia).
    reflexivity.
  - intros Heqw. rewrite Heq.
    replace (col b + w >? width b) with false
      by (symmetry; rewrite Z.gtb_ltb; apply Z.ltb_ge; lia).
    replace (col b + w =? width b) with true
      by (symmetry; apply Z.eqb_eq; lia).
    reflexivity.
  - intros Hw2 Hcol. rewrite Heq.
    replace (col b + w >? width b) with true
      by (symmetry; apply Z.gtb_lt; lia).
    rewrite Hw2. reflexivity.
  - intros Hw1 Hcol. rewrite Heq.
    replace (col b + w >? width b) with false
      by (symmetry; rewrite Z.gtb_ltb; apply Z.ltb_ge; lia).
    replace (col b + w =? width b) with true
      by (symmetry; apply Z.eqb_eq; lia).
    reflexivity.
Qed.
End BufferClaims.

(** C3, as stated, fails on a buffer narrower than a cell: one printable
    rune written to a fresh buffer of width 0, or one wide rune written to a
    fresh buffer of width 1, leaves a line wider than the buffer. *)
Lemma write_overflows_narrow_buffer :
  (exists b0 b,
     newBuffer 0 = Some b0
     /\ @writeAll sampleWidths [(97, "")] b0 = Some b
     /\ width b = 0 /\ ~ fits b)
  /\ (exists b0 b,
        newBuffer 1 = Some b0
        /\ @writeAll sampleWidths [(19990, "")] b0 = Some b
        /\ width b = 1 /\ ~ fits b).
Proof.
  split; (do 2 eexists; split; [reflexivity|]; split; [reflexivity|];
          split; [reflexivity|]);
    unfold fits; cbn [cells width]; intros Hf;
    apply Forall_cons_1 in Hf as [_ Hf]; apply Forall_inv in Hf;
    vm_compute in Hf; apply Hf; reflexivity.
Qed.

(** Width 3 and indent 1: two letters, a wide rune, a line feed, a letter. *)
Lemma write_no_overflow_witness :
  0 <= 1 <= 3
  /\ (forall r a,
        (r, a) ∈ [(97, ""); (98, ""); (19990, "x"); (10, ""); (100, "")] ->
        r <> 10 -> @IsPrint sampleWidths r = true ->
        0 <= @wcwidth sampleWidths r /\ 1 + @wcwidth sampleWidths r <= 3)
  /\ exists b0 b,
       newBuffer 3 = Some b0
       /\ @writeAll sampleWidths
            [(97, ""); (98, ""); (19990, "x"); (10, ""); (100, "")]
            (with_indent b0 1) = Some b
       /\ width b = 3 /\ fits b.
Proof.
  assert (Hfit : forall r a,
        (r, a) ∈ [(97, ""); (98, ""); (19990, "x"); (10, ""); (100, "")] ->
        r <> 10 -> @IsPrint sampleWidths r = true ->
        0 <= @wcwidth sampleWidths r /\ 1 + @wcwidth sampleWidths r <= 3).
  { intros r a Hin _ _.
    repeat (apply elem_of_cons in Hin as [[= -> ->]|Hin]; [simpl; lia|]).
    apply elem_of_nil in Hin. contradiction. }
  split; [lia|]. split; [exact Hfit|].
  apply (@write_no_overflow sampleWidths 3 1 _ ltac:(lia) Hfit).
Defined.

(** A buffer of width 3 and indent 1 with the cursor at column 2: a wide
    rune begins a new line, a letter fills the line. *)
Lemma write_wrap_rule_witness :
  let b := mkBuffer 3 2 1 [[mkCell 97 1 ""; mkCell 98 1 ""]] (mkPos 0 0) in
  @write sampleWidths 19990 "" b
  = Some (mkBuffer 3 3 1 [[mkCell 97 1 ""; mkCell 98 1 ""];
                          [space; mkCell 19990 2 ""]] (mkPos 0 0))
  /\ @write sampleWidths 99 "" b
     = Some (mkBuffer 3 1 1 [[mkCell 97 1 ""; mkCell 98 1 ""; mkCell 99 1 ""];
                             [space]] (mkPos 0 0)).
Proof.
  intros b. split.
  - apply (proj1 (proj2 (proj2
      (@write_wrap_rule sampleWidths b 19990 "" [] _
         ltac:(lia) eq_refl ltac:(simpl; lia) eq_refl)))); reflexivity.
  - apply (proj2 (proj2 (proj2
      (@write_wrap_rule sampleWidths b 99 "" [] _
         ltac:(lia) eq_refl ltac:(simpl; lia) eq_refl)))); reflexivity.
Defined.

(** * Properties of the screen writer *)

Lemma string_app_assoc (a b c : string) : (a +:+ b) +:+ c = a +:+ (b +:+ c).
Proof.
  induction a as [|x a IH]; [reflexivity|].
  change (String x ((a +:+ b) +:+ c) = String x (a +:+ (b +:+ c))).
  rewrite IH. reflexivity.
Qed.

Lemma string_app_nil_r (a : string) : a +:+ "" = a.
Proof.
  induction a as [|x a IH]; [reflexivity|].
  change (String x (a +:+ "") = String x a).
  rewrite IH. reflexivity.
Qed.







(** An accented letter: ['e'] without attribute, then the combining acute
    accent U+0301 (width 0) with attribute ["1"]. *)
Lemma write_combining_mark :
  (b ← newBuffer 10; b ← @write sampleWidths 101 "" b;
   @write sampleWidths 769 "1" b)
  = Some (mkBuffer 10 1 0 [[mkCell 101 1 ""; mkCell 769 0 "1"]] (mkPos 0 0)).
Proof.
  reflexivity.
Qed.



(** C7. [commitBuffer] calls [Write] once, with all the bytes.  When the
    call fails, the error is returned and [oldBuf] is the buffer committed
    before; when it succeeds, nil is returned and [oldBuf] is the new
    buffer. *)
Theorem commitBuffer_atomic (w : writer) (buf : buffer) :
  let bytes := commitBytes (oldBuf w) buf in
  (forall f e,
     File_Write (file w) bytes = (f, Some e) ->
     commitBuffer w buf = (mkWriter f (oldBuf w), Some e))
  /\ (forall f,
        File_Write (file w) bytes = (f, None) ->
        commitBuffer w buf = (mkWriter f buf, None))
  /\ calls (file (fst (commitBuffer w buf))) = S (calls (file w)).
Proof.
  intros bytes. unfold commitBuffer. fold bytes.
  repeat split.
  - intros f e Hw. rewrite Hw. reflexivity.
  - intros f Hw. rewrite Hw. reflexivity.
  - unfold File_Write.
    destruct (faults (file w)) as [|[|n e] rest]; reflexivity.
Qed.

(** A terminal whose next [Write] takes three bytes and fails. *)
Lemma commitBuffer_atomic_witness :
  let oldBuf := mkBuffer 10 1 0 [[mkCell 120 1 ""]] (mkPos 0 1) in
  let buf := mkBuffer 10 2 0 [[mkCell 97 1 ""; mkCell 98 1 ""]] (mkPos 0 2) in
  let w := mkWriter (mkFile "" 0 [WriteErr 3 (IOError "EIO")]) oldBuf in
  File_Write (file w) (commitBytes oldBuf buf)
    = (mkFile (chr 13 +:+ esc +:+ "[") 1 [], Some (IOError "EIO"))
  /\ commitBuffer w buf
     = (mkWriter (mkFile (chr 13 +:+ esc +:+ "[") 1 []) oldBuf,
        Some (IOError "EIO")).
Proof.
  intros oldBuf buf w. split; [reflexivity|].
  apply (proj1 (commitBuffer_atomic w buf)). reflexivity.
Defined.

(** * Properties of the line buffer of [refresh] *)

Section RefreshFacts.
Context `{WidthOracle} `{Attrs}.

(** With [comp.start = 0], one round of the loop over the runes does what it
    does without a completion: the counter is positive when it is compared
    with [comp.start]. *)
Lemma refreshRune_start_zero (bs : editorState) (comp : completion)
  (tok : token) (b : buffer) (i : Z) (r : rune) :
  es_completion bs = Some comp -> start comp = 0 ->
  0 <= i -> 1 <= RuneLen r ->
  refreshRune bs tok (b, i, false) r
  = refreshRune (noCompletion bs) tok (b, i, false) r
  /\ forall st, refreshRune bs tok (b, i, false) r = Some st ->
       exists b', st = (b', i + RuneLen r, false).
Proof.
  intros Hcomp Hstart Hi Hr. unfold refreshRune.
  rewrite Hcomp. cbn [noCompletion es_completion es_dot mbind option_bind].
  destruct (write r (attrForType (Typ tok)) b) as [b1|];
    cbn [mbind option_bind]; [|split; [reflexivity|discriminate]].
  rewrite Hstart.
  replace (i + RuneLen r =? 0) with false by (symmetry; apply Z.eqb_neq; lia).
  rewrite andb_false_r. cbn [mbind option_bind].
  split; [reflexivity|].
  intros st [= <-]. eexists. reflexivity.
Qed.

Lemma refreshToken_start_zero (bs : editorState) (comp : completion)
  (tok : token) (rs : text) :
  es_completion bs = Some comp -> start comp = 0 ->
  Forall (fun r => 1 <= RuneLen r) rs ->
  forall b i, 0 <= i ->
    refreshToken bs tok rs (b, i, false)
    = refreshToken (noCompletion bs) tok rs (b, i, false)
    /\ forall st, refreshToken bs tok rs (b, i, false) = Some st ->
         exists b' i', st = (b', i', false) /\ 0 <= i'.
Proof.
  intros Hcomp Hstart Hrs.
  induction Hrs as [|r rs Hr _ IH]; intros b i Hi; cbn [refreshToken].
  - split; [reflexivity|]. intros st [= <-]. eauto.
  - destruct (refreshRune_start_zero bs comp tok b i r Hcomp Hstart Hi Hr)
      as [Heq Hst].
    rewrite <- Heq.
    destruct (refreshRune bs tok (b, i, false) r) as [st1|];
      cbn [mbind option_bind]; [|split; [reflexivity|discriminate]].
    destruct (Hst st1 eq_refl) as [b1 ->].
    apply IH. lia.
Qed.

Lemma refreshTokens_start_zero (bs : editorState) (comp : completion)
  (toks : list token) :
  es_completion bs = Some comp -> start comp = 0 ->
  Forall (fun tok => Forall (fun r => 1 <= RuneLen r) (Val tok)) toks ->
  forall b i, 0 <= i ->
    refreshTokens bs toks (b, i, false)
    = refreshTokens (noCompletion bs) toks (b, i, false).
Proof.
  intros Hcomp Hstart Htoks.
  induction Htoks as [|tok toks Htok _ IH]; intros b i Hi;
    cbn [refreshTokens]; [reflexivity|].
  destruct (refreshToken_start_zero bs comp tok (Val tok) Hcomp Hstart Htok b i Hi)
    as [Heq Hst].
  rewrite <- Heq.
  destruct (refreshToken bs tok (Val tok) (b, i, false)) as [st1|];
    cbn [mbind option_bind]; [|reflexivity].
  destruct (Hst st1 eq_refl) as (b1 & i1 & -> & Hi1).
  apply IH. exact Hi1.
Qed.

(** Whatever the editor state, a completion with [comp.start = 0] leaves no
    trace in the line buffer: the candidate is not written and no rune of
    the text is suppressed.  (The runes that [range] yields are valid code
    points, of which [utf8.RuneLen] is at least 1.) *)
Lemma refreshLine_start_zero_ignored (cols : Z) (bs : editorState)
  (comp : completion) :
  es_completion bs = Some comp -> start comp = 0 ->
  Forall (fun tok => Forall (fun r => 1 <= RuneLen r) (Val tok)) (tokens bs) ->
  refreshLine cols bs = refreshLine cols (noCompletion bs).
Proof.
  intros Hcomp Hstart Htoks. unfold refreshLine.
  destruct (newBuffer cols) as [b0|]; cbn [mbind option_bind]; [|reflexivity].
  cbn [noCompletion prompt es_dot tokens].
  destruct (writes (prompt bs) attrForPrompt b0) as [b1|];
    cbn [mbind option_bind]; [|reflexivity].
  rewrite (refreshTokens_start_zero bs comp (tokens bs) Hcomp Hstart Htoks)
    by lia.
  reflexivity.
Qed.
End RefreshFacts.

(** C9 (the code departs from the claim). Prompt ["> "], text ["ab"], and
    a completion of the bytes [0, 2) whose selected candidate is ["abc"]:
    the byte counter is compared with [comp.start] only after it has been
    advanced, so it is never found equal to 0.  The candidate is not
    written and the text is not suppressed: the line is ["> ab"], the very
    buffer built without a completion.  When the same completion starts
    at byte 2 of ["x ab"], the line is ["> x abc"]. *)
Theorem refreshLine_start_zero_missed :
  let cand := mkCandidate [97; 98; 99] [mkPart [97; 98] true; mkPart [99] false] in
  let bs := mkEditorState [mkToken 1 [97; 98]] [62; 32] 2
              (Some (mkCompletion 0 2 2 [cand] 0)) in
  let bs2 := mkEditorState [mkToken 1 [120; 32; 97; 98]] [62; 32] 4
               (Some (mkCompletion 2 4 2 [cand] 0)) in
  (map lineRunes ∘ cells) <$> @refreshLine sampleWidths sampleAttrs 20 bs
    = Some [[62; 32; 97; 98]]
  /\ @refreshLine sampleWidths sampleAttrs 20 bs
     = @refreshLine sampleWidths sampleAttrs 20
         (mkEditorState (tokens bs) (prompt bs) (es_dot bs) None)
  /\ (map lineRunes ∘ cells) <$> @refreshLine sampleWidths sampleAttrs 20 bs2
     = Some [[62; 32; 120; 32; 97; 98; 99]].
Proof.
  repeat split; reflexivity.
Qed.

(** * Further properties of the key decoder *)

Lemma wrap64_small (z : Z) : - 2 ^ 63 <= z < 2 ^ 63 -> wrap64 z = z.
Proof.
  intros Hz. unfold wrap64. rewrite Z.mod_small by lia. lia.
Qed.

Lemma wrap64_congr (a b : Z) :
  a mod 2 ^ 64 = b mod 2 ^ 64 -> wrap64 a = wrap64 b.
Proof.
  intros Hab. unfold wrap64.
  rewrite (Z.add_mod a), (Z.add_mod b), Hab by lia. reflexivity.
Qed.

Lemma wrap64_mod (z : Z) : wrap64 z mod 2 ^ 64 = z mod 2 ^ 64.
Proof.
  unfold wrap64.
  rewrite <- Zminus_mod_idemp_l, Z.mod_mod by lia.
  rewrite Zminus_mod_idemp_l. f_equal. lia.
Qed.

Lemma wrap64_step (a d : Z) : wrap64 (wrap64 a * 10 + d) = wrap64 (a * 10 + d).
Proof.
  apply wrap64_congr.
  rewrite (Z.add_mod (wrap64 a * 10)), (Z.add_mod (a * 10)) by lia.
  rewrite (Z.mul_mod (wrap64 a)), (Z.mul_mod a), wrap64_mod by lia.
  reflexivity.
Qed.

Lemma csiParam_snoc_digit (front : list Z) (n : Z) (r : rune) :
  r <> 59 ->
  csiParam (front ++ [n]) r = front ++ [wrap64 (n * 10 + (r - 48))].
Proof.
  intros Hr. unfold csiParam, len. rewrite length_app. simpl length.
  replace (Z.of_nat (length front + 1) =? 0) with false
    by (symmetry; apply Z.eqb_neq; lia).
  destruct (Z.eqb_spec r 59) as [|_]; [contradiction|].
  rewrite length_app. simpl length.
  replace (length front + 1 - 1)%nat with (length front + 0)%nat by lia.
  rewrite alter_app_r. reflexivity.
Qed.

Lemma csiParam_snoc_semi (front : list Z) (n : Z) :
  csiParam (front ++ [n]) 59 = front ++ [n; 0].
Proof.
  unfold csiParam, len. rewrite length_app. simpl length.
  replace (Z.of_nat (length front + 1) =? 0) with false
    by (symmetry; apply Z.eqb_neq; lia).
  simpl (59 =? 59). cbv iota. rewrite <- app_assoc. reflexivity.
Qed.

(** The first round starts the first parameter at 0. *)
Lemma csiParam_nil (r : rune) : csiParam [] r = csiParam [0] r.
Proof.
  reflexivity.
Qed.

Lemma isDigit_not_semi (r : rune) : isDigit r = true -> r <> 59.
Proof.
  unfold isDigit. intros Hd ->. discriminate Hd.
Qed.

Lemma csiParams_digits (ds : list rune) :
  Forall (fun d => isDigit d = true) ds ->
  forall front n,
    csiParams ds (front ++ [n]) = front ++ [accumulate n ds].
Proof.
  unfold csiParams, accumulate.
  induction 1 as [|d ds Hd _ IH]; intros front n; cbn [fold_left].
  - reflexivity.
  - rewrite csiParam_snoc_digit by (apply isDigit_not_semi; exact Hd).
    apply IH.
Qed.

Lemma csiParams_app (a b : list rune) (nums : list Z) :
  csiParams (a ++ b) nums = csiParams b (csiParams a nums).
Proof.
  apply fold_left_app.
Qed.

Lemma csiParams_groups_from (gs : list (list rune)) :
  Forall (Forall (fun d => isDigit d = true)) gs ->
  forall g front n,
    Forall (fun d => isDigit d = true) g ->
    csiParams (g ++ flat_map (fun g' => 59 :: g') gs) (front ++ [n])
    = front ++ accumulate n g :: map (accumulate 0) gs.
Proof.
  induction 1 as [|g1 gs Hg1 _ IH]; intros g front n Hg.
  - cbn [flat_map map]. rewrite app_nil_r. apply csiParams_digits. exact Hg.
  - cbn [flat_map map]. rewrite csiParams_app, (csiParams_digits g Hg).
    change ((59 :: g1) ++ flat_map (fun g' => 59 :: g') gs)
      with ([59] ++ (g1 ++ flat_map (fun g' => 59 :: g') gs)).
    rewrite csiParams_app.
    change (csiParams [59] (front ++ [accumulate n g]))
      with (csiParam (front ++ [accumulate n g]) 59).
    rewrite csiParam_snoc_semi.
    replace (front ++ [accumulate n g; 0])
      with ((front ++ [accumulate n g]) ++ [0])
      by (rewrite <- app_assoc; reflexivity).
    rewrite (IH g1 (front ++ [accumulate n g]) 0 Hg1).
    rewrite <- app_assoc. reflexivity.
Qed.

(** X1. The parameters of a CSI sequence.  Groups of digits separated by
    [';'] give one parameter per group, in order, each the value the loop
    accumulates from 0 (so an empty group gives 0); but when no rune at all
    is read before the final byte, there is no parameter. *)
Theorem csiParams_groups (g : list rune) (gs : list (list rune)) :
  Forall (Forall (fun d => isDigit d = true)) (g :: gs) ->
  csiParams (joinParams (g :: gs)) []
  = if decide (joinParams (g :: gs) = []) then []
    else map (accumulate 0) (g :: gs).
Proof.
  intros Hall. apply Forall_cons_1 in Hall as [Hg Hgs].
  destruct (decide (joinParams (g :: gs) = [])) as [->|Hne]; [reflexivity|].
  destruct (joinParams (g :: gs)) as [|r rs] eqn:Hjoin; [contradiction|].
  unfold csiParams. cbn [fold_left]. rewrite csiParam_nil.
  change (fold_left csiParam rs (csiParam [0] r)) with (csiParams (r :: rs) ([] ++ [0])).
  rewrite <- Hjoin. cbn [joinParams].
  rewrite (csiParams_groups_from gs Hgs g [] 0 Hg). reflexivity.
Qed.

Lemma accumulate_wrap (ds : list rune) :
  forall n m, n = wrap64 m ->
    accumulate n ds
    = wrap64 (fold_left (fun a d => a * 10 + (d - 48)) ds m).
Proof.
  unfold accumulate.
  induction ds as [|d ds IH]; intros n m Hn; cbn [fold_left].
  - exact Hn.
  - apply IH. rewrite Hn. apply wrap64_step.
Qed.

Lemma decimal_from_ge (ds : list rune) :
  Forall (fun d => isDigit d = true) ds ->
  forall n, 0 <= n -> n <= fold_left (fun a d => a * 10 + (d - 48)) ds n.
Proof.
  induction 1 as [|d ds Hd _ IH]; intros n Hn; cbn [fold_left]; [lia|].
  unfold isDigit in Hd. apply andb_true_iff in Hd as [Hlo Hhi].
  apply Z.leb_le in Hlo. apply Z.leb_le in Hhi.
  etransitivity; [|apply IH; lia]. lia.
Qed.

(** X2. The value of a parameter.  The loop accumulates from a group of
    digits the number they write in base ten, wrapped to 64 bits; a number
    below [2^63] comes out as it is. *)
Theorem accumulate_decimal (ds : list rune) :
  Forall (fun d => isDigit d = true) ds ->
  accumulate 0 ds = wrap64 (decimal ds)
  /\ (decimal ds < 2 ^ 63 -> accumulate 0 ds = decimal ds).
Proof.
  intros Hds.
  assert (Hacc : accumulate 0 ds = wrap64 (decimal ds))
    by (apply accumulate_wrap; reflexivity).
  split; [exact Hacc|].
  intros Hlt. rewrite Hacc. apply wrap64_small.
  pose proof (decimal_from_ge ds Hds 0 ltac:(lia)) as Hge.
  unfold decimal in *. lia.
Qed.

Section DecoderMore.
Context `{KeyNames}.

Lemma readCSI_params (rs : list rune) :
  forallb isParamRune rs = true ->
  forall last rest tmo nums,
    isParamRune last = false ->
    readCSI (map Rune rs ++ Rune last :: rest) tmo nums
    = (fst (parseCSI (csiParams rs nums) last),
       snd (parseCSI (csiParams rs nums) last),
       mkReader (-1) rest).
Proof.
  induction rs as [|r rs IH]; intros Hrs last rest tmo nums Hlast.
  - cbn [map app readCSI csiParams fold_left].
    unfold isParamRune, isDigit in Hlast.
    replace (negb (last =? 59) && ((last <? 48) || (57 <? last))) with true.
    + destruct (parseCSI nums last). reflexivity.
    + destruct (last =? 59); [discriminate|]. cbn [orb negb andb] in *.
      destruct (Z.leb_spec 48 last), (Z.leb_spec last 57);
        cbn [andb] in Hlast; try discriminate;
        destruct (Z.ltb_spec last 48), (Z.ltb_spec 57 last);
        try reflexivity; lia.
  - cbn [forallb] in Hrs. apply andb_true_iff in Hrs as [Hr Hrs].
    cbn [map app readCSI].
    replace (negb (r =? 59) && ((r <? 48) || (57 <? r))) with false.
    + rewrite (IH Hrs last rest (-1) (csiParam nums r) Hlast). reflexivity.
    + unfold isParamRune, isDigit in Hr.
      destruct (r =? 59); [reflexivity|]. cbn [orb negb andb] in *.
      apply andb_true_iff in Hr as [Hlo Hhi].
      apply Z.leb_le in Hlo. apply Z.leb_le in Hhi.
      destruct (Z.ltb_spec r 48), (Z.ltb_spec 57 r); try reflexivity; lia.
Qed.

(** X3. A whole CSI sequence.  After ESC and ['['], the decoder reads the
    digits and [';'] that follow and the first rune that is neither, the
    final byte, and no more; the key and the error are those of [parseCSI]
    on the parameters gathered, and the timeout is [-1] afterwards. *)
Theorem readKey_csi_sequence (rs : list rune) (last : rune)
  (rest : list outcome) (tmo : Z) :
  forallb isParamRune rs = true -> isParamRune last = false ->
  readKey (mkReader tmo (Rune 27 :: Rune 91 :: map Rune rs ++ Rune last :: rest))
  = (fst (parseCSI (csiParams rs []) last),
     snd (parseCSI (csiParams rs []) last),
     mkReader (-1) rest).
Proof.
  intros Hrs Hlast. unfold readKey, ReadRune. cbn [stream Timeout].
  unfold readEsc, ReadRune, setTimeout. cbn [stream Timeout].
  change (91 =? 91) with true. cbv iota.
  rewrite (readCSI_params rs Hrs last rest EscTimeout [] Hlast).
  reflexivity.
Qed.

Lemma readCSI_suffix (pending : list outcome) :
  forall tmo nums,
    exists used, pending = used ++ stream (snd (readCSI pending tmo nums)).
Proof.
  induction pending as [|o rest IH]; intros tmo nums; cbn [readCSI].
  - exists []. reflexivity.
  - destruct o as [r|e].
    + destruct (negb (r =? 59) && ((r <? 48) || (57 <? r))).
      * destruct (parseCSI nums r). exists [Rune r]. reflexivity.
      * destruct (IH (-1) (csiParam nums r)) as [used Hu].
        exists (Rune r :: used). cbn [app]. rewrite <- Hu. reflexivity.
    + destruct (error_eqb e async_Timeout); exists [Fail e]; reflexivity.
Qed.

(** X4. [readKey] reads from the front.  What is left of the stream after
    the call is what it was before, less the outcomes read; and unless the
    stream is empty at least one outcome is read. *)
Theorem readKey_consumes_prefix (rd : reader) :
  exists used,
    stream rd = used ++ stream (snd (readKey rd))
    /\ (stream rd = [] \/ (1 <= length used)%nat).
Proof.
  destruct rd as [tmo [|o rest]].
  - exists []. split; [reflexivity|]. left. reflexivity.
  - assert (Hgoal : exists used',
              rest = used' ++ stream (snd (readKey (mkReader tmo (o :: rest))))).
    { unfold readKey, ReadRune. cbn [stream Timeout].
      destruct o as [r|e]; [|exists []; reflexivity].
      destruct (Z.eq_dec r 27) as [->|Hr].
      - unfold readEsc, ReadRune, setTimeout. cbn [stream Timeout].
        destruct rest as [|[r2|e2] rest2].
        + exists []. reflexivity.
        + destruct (r2 =? 91).
          * destruct (readCSI_suffix rest2 EscTimeout []) as [used Hu].
            simpl.
            destruct (readCSI rest2 EscTimeout []) as [[k e] rd'].
            exists (Rune r2 :: used). simpl in Hu. simpl.
            rewrite <- Hu. reflexivity.
          * destruct (r2 =? 79); [|exists [Rune r2]; reflexivity].
            cbn [stream Timeout].
            destruct rest2 as [|[r3|e3] rest3].
            -- exists [Rune r2]. reflexivity.
            -- destruct (lookup_table r3 g3Seq);
                 exists [Rune r2; Rune r3]; reflexivity.
            -- destruct (error_eqb e3 async_Timeout);
                 exists [Rune r2; Fail e3]; reflexivity.
        + destruct (error_eqb e2 async_Timeout); exists [Fail e2]; reflexivity.
      - exists []. repeat case_match; try reflexivity; congruence. }
    destruct Hgoal as [used' Hu]. exists (o :: used').
    split; [|right; cbn [length]; lia].
    cbn [stream app]. rewrite <- Hu. reflexivity.
Qed.

Lemma error_eqb_timeout (e : error) :
  error_eqb e async_Timeout = false -> e <> async_Timeout.
Proof.
  intros He ->. discriminate He.
Qed.

Lemma readCSI_error (pending : list outcome) :
  forall tmo nums k e rd',
    readCSI pending tmo nums = (k, Some e, rd') ->
    e = BadEscSeq \/ (e <> async_Timeout /\ (e = EOF \/ Fail e ∈ pending)).
Proof.
  induction pending as [|o rest IH]; intros tmo nums k e rd'; cbn [readCSI].
  - intros [= _ <- _]. right. split; [discriminate|]. left. reflexivity.
  - destruct o as [r|e0].
    + destruct (negb (r =? 59) && ((r <? 48) || (57 <? r))).
      * destruct (parseCSI_cases nums r) as [Hn|Hb].
        -- destruct (parseCSI nums r) as [k0 e1]. cbn [snd] in Hn. subst e1.
           intros [=].
        -- rewrite Hb. intros [= _ <- _]. left. reflexivity.
      * intros Hrun. destruct (IH _ _ _ _ _ Hrun) as [Hb|[Hne [He|Hin]]]; auto.
        right. split; [exact Hne|]. right. apply elem_of_cons. auto.
    + destruct (error_eqb e0 async_Timeout) eqn:He0; intros [=]; subst.
      right. split; [apply error_eqb_timeout; exact He0|].
      right. apply elem_of_cons. auto.
Qed.

(** X5. Where the errors come from.  An error of [readKey] is [BadEscSeq],
    or [io.EOF], or an error that the byte source gave.  The timeout of the
    byte source is returned as an error only when the very first read gives
    it; after ESC it is turned into a key. *)
Theorem readKey_error_origin (rd : reader) (k : Key) (e : error) (rd' : reader) :
  readKey rd = (k, Some e, rd') ->
  (e = BadEscSeq \/ e = EOF \/ Fail e ∈ stream rd)
  /\ (e = async_Timeout -> exists rest, stream rd = Fail async_Timeout :: rest).
Proof.
  intros Hrun.
  assert (Hfirst :
    (exists rest, stream rd = Fail e :: rest)
    \/ (stream rd = [] /\ e = EOF)
    \/ (e <> async_Timeout
        /\ (e = BadEscSeq \/ e = EOF \/ Fail e ∈ stream rd))).
  { revert Hrun. unfold readKey, ReadRune.
    destruct rd as [tmo [|[r|e0] rest]]; cbn [stream Timeout].
    - intros [= _ <- _]. right. left. auto.
    - destruct (Z.eq_dec r 27) as [->|Hr].
      + destruct (readEsc 27 _) as [[k1 e1] rd1] eqn:Hesc.
        intros [= _ -> _]. right. right. revert Hesc.
        unfold readEsc, ReadRune, setTimeout. cbn [stream Timeout].
        destruct rest as [|[r2|e2] rest2].
        * intros [= _ <- _]. split; [discriminate|]. auto.
        * destruct (r2 =? 91).
          -- intros Hcsi. apply readCSI_error in Hcsi as [Hb|[Hne [He|Hin]]].
             ++ subst e. split; [discriminate|]. auto.
             ++ split; [exact Hne|]. auto.
             ++ split; [exact Hne|]. right. right.
                do 2 (apply elem_of_cons; right). exact Hin.
          -- destruct (r2 =? 79); [|intros [=]].
             cbn [stream Timeout].
             destruct rest2 as [|[r3|e3] rest3].
             ++ intros [= _ <- _]. split; [discriminate|]. auto.
             ++ destruct (lookup_table r3 g3Seq); intros [=]; subst.
                split; [discriminate|]. auto.
             ++ destruct (error_eqb e3 async_Timeout) eqn:He3; intros [=]; subst.
                split; [apply error_eqb_timeout; exact He3|].
                right. right. do 2 (apply elem_of_cons; right).
                apply elem_of_cons. auto.
        * destruct (error_eqb e2 async_Timeout) eqn:He2; intros [=]; subst.
          split; [apply error_eqb_timeout; exact He2|].
          right. right. apply elem_of_cons; right. apply elem_of_cons. auto.
      + repeat case_match; intros [=]; congruence.
    - intros [= _ <- _]. left. eauto. }
  split.
  - destruct Hfirst as [[rest Hs]|[[_ He]|[_ Ho]]]; auto.
    right. right. rewrite Hs. apply elem_of_cons. auto.
  - intros ->. destruct Hfirst as [Hs|[[_ He]|[Hne _]]];
      [exact Hs|discriminate He|contradiction].
Qed.
Lemma orMod_eq (k : Key) (a b : Z) : a = b -> orMod k a = orMod k b.
Proof.
  intros ->. reflexivity.
Qed.

(** X6. The modifier codes.  [xtermModify] accepts the codes 0 and 2 to 8
    and nothing else, not even 1 (xterm's code for no modifier).  For a code
    from 2 to 8 it keeps the rune and adds the modifiers that the bits of
    the code less one stand for; for 0 it returns the key as it is. *)
Theorem xtermModify_codes (k : Key) (m : Z) :
  (2 <= m <= 8 -> xtermModify k m = (orMod k (modBits (m - 1)), None))
  /\ xtermModify k 0 = (k, None)
  /\ (m < 0 \/ m = 1 \/ 8 < m -> xtermModify k m = (ZeroKey, Some BadEscSeq)).
Proof.
  split; [|split].
  - intros Hm.
    assert (Hcases : m = 2 \/ m = 3 \/ m = 4 \/ m = 5 \/ m = 6 \/ m = 7 \/ m = 8)
      by lia.
    destruct Hcases as [->|[->|[->|[->|[->|[->| ->]]]]]];
      cbn [xtermModify]; f_equal; apply orMod_eq; unfold modBits;
      cbn [Z.sub Z.add Z.opp Z.pos_sub Z.testbit Pos.testbit Z.succ_double
           Z.pred_double Z.double Pos.pred_double Z.to_N N.pred Pos.pred_N];
      rewrite ?Z.lor_0_r, ?Z.lor_0_l; reflexivity.
  - reflexivity.
  - intros Hm. unfold xtermModify. repeat case_match; try reflexivity; lia.
Qed.

(** X7. What [parseCSI] accepts.  A sequence is decoded without error in
    three shapes and no other: no parameter and a final byte of
    [keyByLast]; the two parameters [1; m] and a final byte of [keyByLast];
    two parameters [n; m], the final byte ['~'] and [n] in [keyByNum0].  In
    the last two the key is modified by [m]. *)
Theorem parseCSI_accepts (nums : list Z) (last : rune) (k : Key) :
  parseCSI nums last = (k, None) <->
  (nums = [] /\ exists r, lookup_table last keyByLast = Some r /\ k = mkKey r 0)
  \/ (exists m r,
        nums = [1; m] /\ lookup_table last keyByLast = Some r
        /\ xtermModify (mkKey r 0) m = (k, None))
  \/ (exists n m r,
        nums = [n; m] /\ last = 126 /\ lookup_table n keyByNum0 = Some r
        /\ xtermModify (mkKey r 0) m = (k, None)).
Proof.
  split.
  - destruct nums as [|a [|b [|c nums']]].
    + unfold parseCSI. change (len (@nil Z)) with 0. cbn [Z.eqb negb andb orb].
      destruct (lookup_table last keyByLast) as [r|] eqn:Hl.
      * intros [= <-]. left. eauto.
      * destruct (last =? 126); intros [=].
    + intros Hrun. discriminate Hrun.
    + unfold parseCSI. change (len [a; b]) with 2.
      change (at_ [a; b] 0) with a. change (at_ [a; b] 1) with b.
      cbn [Z.eqb Pos.eqb negb andb orb].
      destruct (lookup_table last keyByLast) as [r|] eqn:Hl.
      * destruct (Z.eqb_spec a 1) as [->|Ha]; cbn [negb]; [|intros [=]].
        intros Hx. right. left. eauto.
      * destruct (Z.eqb_spec last 126) as [->|Hlast]; [|intros [=]].
        destruct (lookup_table a keyByNum0) as [r|] eqn:Hn; [|intros [=]].
        intros Hx. right. right. exists a, b, r. auto.
    + unfold parseCSI.
      replace (negb (len (a :: b :: c :: nums') =? 0)
               && negb (len (a :: b :: c :: nums') =? 2)) with true.
      * intros [=].
      * unfold len. cbn [length].
        destruct (Z.eqb_spec (Z.of_nat (S (S (S (length nums'))))) 0); [lia|].
        destruct (Z.eqb_spec (Z.of_nat (S (S (S (length nums'))))) 2); [lia|].
        reflexivity.
  - intros [[-> (r & Hl & ->)]|[(m & r & -> & Hl & Hx)|(n & m & r & -> & -> & Hn & Hx)]].
    + unfold parseCSI. change (len (@nil Z)) with 0. cbn [Z.eqb negb andb orb].
      rewrite Hl. reflexivity.
    + unfold parseCSI. change (len [1; m]) with 2.
      change (at_ [1; m] 0) with 1. change (at_ [1; m] 1) with m.
      cbn [Z.eqb Pos.eqb negb andb orb]. rewrite Hl. exact Hx.
    + rewrite (parseCSI_keypad_two n m r Hn). exact Hx.
Qed.

(** X8. Single runes.  Each of the control bytes 0x01 to 0x1c other than ESC
    is the key of the character 0x40 above it with Ctrl (Tab is Ctrl+I,
    Enter is Ctrl+M); the byte 0x1e and every rune from 0x20 on other than
    0x7f is the key of that rune without modifiers.  One rune is read and
    the timeout is not touched. *)
Theorem readKey_one_rune (r : rune) (tmo : Z) (rest : list outcome) :
  (1 <= r <= 28 -> r <> 27 ->
   readKey (mkReader tmo (Rune r :: rest))
   = (mkKey (r + 64) Ctrl, None, mkReader tmo rest))
  /\ (r = 30 \/ (32 <= r /\ r <> 127) ->
      readKey (mkReader tmo (Rune r :: rest))
      = (mkKey r 0, None, mkReader tmo rest)).
Proof.
  split.
  - intros Hr H27. unfold readKey, ReadRune. cbn [stream Timeout].
    replace ((1 <=? r) && (r <=? 29)) with true
      by (symmetry; apply andb_true_iff; split; apply Z.leb_le; lia).
    repeat case_match; try reflexivity; lia.
  - intros Hr. unfold readKey, ReadRune. cbn [stream Timeout].
    replace ((1 <=? r) && (r <=? 29)) with false
      by (symmetry; apply andb_false_iff; right; apply Z.leb_gt; lia).
    repeat case_match; try reflexivity; lia.
Qed.

(** X9. ESC before an ordinary rune.  When the rune after ESC is neither
    ['['] nor ['O'], that rune is read and the key returned is Alt with the
    rune 0x1b, whatever the rune after ESC was. *)
Theorem readKey_esc_other (r2 : rune) (tmo : Z) (rest : list outcome) :
  r2 <> 91 -> r2 <> 79 ->
  readKey (mkReader tmo (Rune 27 :: Rune r2 :: rest))
  = (mkKey 27 Alt, None, mkReader (-1) rest).
Proof.
  intros H91 H79. unfold readKey, ReadRune. cbn [stream Timeout].
  unfold readEsc, ReadRune, setTimeout. cbn [stream Timeout].
  destruct (Z.eqb_spec r2 91) as [|_]; [contradiction|].
  destruct (Z.eqb_spec r2 79) as [|_]; [contradiction|].
  reflexivity.
Qed.
End DecoderMore.

(** * Further properties of the cell buffer *)

Section BufferMore.
Context `{WidthOracle}.

(** What one call of [write] does to a buffer that has a last line [l]. *)
Lemma write_cases (b : buffer) (r : rune) (a : string)
  (lines : list (list cell)) (l : list cell) :
  0 <= width b -> cells b = lines ++ [l] ->
  let c := mkCell r (byte (wcwidth r)) a in
  let pad := replicate (Z.to_nat (indent b)) space in
  (cellsOf [(r, a)] = []
   /\ (write r a b = Some b
       \/ write r a b
          = Some (with_cells b (lines ++ [l; pad]) (Z.max 0 (indent b)))))
  \/ (cellsOf [(r, a)] = [c]
      /\ (write r a b
          = Some (with_cells b (lines ++ [l; pad ++ [c]])
                             (Z.max 0 (indent b) + byte (wcwidth r)))
          \/ write r a b
             = Some (with_cells b (lines ++ [l ++ [c]; pad])
                                (Z.max 0 (indent b)))
          \/ write r a b
             = Some (with_cells b (lines ++ [l ++ [c]])
                                (col b + byte (wcwidth r))))).
Proof.
  intros Hw Hc c pad. unfold cellsOf. cbn [flat_map]. rewrite app_nil_r.
  destruct (Z.eqb_spec r 10) as [->|Hr].
  - left. split; [reflexivity|]. right.
    unfold write. simpl (10 =? 10). cbv iota.
    rewrite newline_eq by exact Hw. rewrite Hc, <- app_assoc. reflexivity.
  - destruct (IsPrint r) eqn:Hp; cbn [orb negb].
    + right. split; [reflexivity|].
      rewrite (write_printable b r a lines l Hr Hp Hw Hc).
      destruct (col b + wcwidth r >? width b); [auto|].
      destruct (col b + wcwidth r =? width b); auto.
    + left. split; [reflexivity|]. left.
      unfold write. destruct (Z.eqb_spec r 10); [contradiction|].
      rewrite Hp. reflexivity.
Qed.

(** The shape of a buffer that [write] keeps, whatever the widths: the
    fields [width], [indent] and [dot], a last line whose summed width is
    [col], and the cells in reading order when there is no indent. *)
Lemma write_keeps_shape (b : buffer) (r : rune) (a : string)
  (lines : list (list cell)) (l : list cell) :
  0 <= width b -> cells b = lines ++ [l] -> col b = lineWidth l ->
  exists b' lines' l',
    write r a b = Some b'
    /\ width b' = width b /\ indent b' = indent b /\ dot b' = dot b
    /\ cells b' = lines' ++ [l'] /\ col b' = lineWidth l'
    /\ (length lines <= length lines' <= S (length lines))%nat
    /\ (indent b <= 0 ->
        concat (cells b') = concat (cells b) ++ cellsOf [(r, a)]).
Proof.
  intros Hw Hc Hcol.
  assert (Hpad : indent b <= 0 -> replicate (Z.to_nat (indent b)) space = [])
    by (intros Hk; replace (Z.to_nat (indent b)) with 0%nat by lia; reflexivity).
  destruct (write_cases b r a lines l Hw Hc) as [[-> [Hrun|Hrun]]|[-> [Hrun|[Hrun|Hrun]]]];
    rewrite Hrun.
  - exists b, lines, l. repeat split; try assumption; try lia.
    intros _. rewrite app_nil_r. reflexivity.
  - eexists _, (lines ++ [l]), _. split; [reflexivity|].
    cbn [with_cells width indent dot cells col].
    repeat split.
    + rewrite <- app_assoc. reflexivity.
    + rewrite lineWidth_pad. lia.
    + rewrite length_app. cbn [length]. lia.
    + rewrite length_app. cbn [length]. lia.
    + intros Hk. rewrite (Hpad Hk), Hc, !concat_app. cbn [concat].
      rewrite !app_nil_r. reflexivity.
  - eexists _, (lines ++ [l]), _. split; [reflexivity|].
    cbn [with_cells width indent dot cells col].
    repeat split.
    + rewrite <- app_assoc. reflexivity.
    + rewrite lineWidth_app, lineWidth_pad. cbn [cell_width]. lia.
    + rewrite length_app. cbn [length]. lia.
    + rewrite length_app. cbn [length]. lia.
    + intros Hk. rewrite (Hpad Hk), Hc, !concat_app. cbn [concat app].
      rewrite !app_nil_r, <- app_assoc. reflexivity.
  - eexists _, (lines ++ [l ++ [_]]), _. split; [reflexivity|].
    cbn [with_cells width indent dot cells col].
    repeat split.
    + rewrite <- app_assoc. reflexivity.
    + rewrite lineWidth_pad. lia.
    + rewrite length_app. cbn [length]. lia.
    + rewrite length_app. cbn [length]. lia.
    + intros Hk. rewrite (Hpad Hk), Hc, !concat_app. cbn [concat app].
      rewrite !app_nil_r, <- app_assoc. reflexivity.
  - eexists _, lines, _. split; [reflexivity|].
    cbn [with_cells width indent dot cells col].
    repeat split; try lia.
    + rewrite lineWidth_app. cbn [cell_width]. lia.
    + intros _. rewrite Hc, !concat_app. cbn [concat app].
      rewrite !app_nil_r, <- app_assoc. reflexivity.
Qed.

Lemma cellsOf_cons (r : rune) (a : string) (ws : list (rune * string)) :
  cellsOf ((r, a) :: ws) = cellsOf [(r, a)] ++ cellsOf ws.
Proof.
  unfold cellsOf. cbn [flat_map]. rewrite app_nil_r. reflexivity.
Qed.

Lemma writeAll_keeps_shape (ws : list (rune * string)) :
  forall (b : buffer) lines l,
    0 <= width b -> cells b = lines ++ [l] -> col b = lineWidth l ->
    exists b' lines' l',
      writeAll ws b = Some b'
      /\ width b' = width b /\ indent b' = indent b /\ dot b' = dot b
      /\ cells b' = lines' ++ [l'] /\ col b' = lineWidth l'
      /\ (length lines <= length lines' <= length ws + length lines)%nat
      /\ (indent b <= 0 -> concat (cells b') = concat (cells b) ++ cellsOf ws).
Proof.
  induction ws as [|[r a] ws IH]; intros b lines l Hw Hc Hcol.
  - exists b, lines, l. cbn [writeAll length].
    repeat split; try assumption; try lia.
    intros _. unfold cellsOf. cbn [flat_map]. rewrite app_nil_r. reflexivity.
  - destruct (write_keeps_shape b r a lines l Hw Hc Hcol)
      as (b1 & lines1 & l1 & Hrun1 & Hw1 & Hi1 & Hd1 & Hc1 & Hcol1 & Hlen1 & Hcat1).
    destruct (IH b1 lines1 l1 ltac:(lia) Hc1 Hcol1)
      as (b2 & lines2 & l2 & Hrun2 & Hw2 & Hi2 & Hd2 & Hc2 & Hcol2 & Hlen2 & Hcat2).
    exists b2, lines2, l2. cbn [writeAll length]. rewrite Hrun1.
    cbn [mbind option_bind].
    repeat split; try congruence; try lia.
    intros Hk. rewrite Hcat2 by lia. rewrite Hcat1 by lia.
    rewrite (cellsOf_cons r a ws), app_assoc. reflexivity.
Qed.

(** X10. [write] on a buffer of [newBuffer].  On a fresh buffer of width
    [W >= 0] with any indent [k], every sequence of calls of [write] runs
    without a panic, leaves [width], [indent] and [dot] as they were, adds
    at most one line per call, and keeps the cursor at the last line and the
    summed width of that line. *)
Theorem writeAll_cursor (W k : Z) (ws : list (rune * string)) :
  0 <= W ->
  exists b0 b lines l,
    newBuffer W = Some b0
    /\ writeAll ws (with_indent b0 k) = Some b
    /\ width b = W /\ indent b = k /\ dot b = mkPos 0 0
    /\ cells b = lines ++ [l]
    /\ cursor b = mkPos (len lines) (lineWidth l)
    /\ (length lines <= length ws)%nat.
Proof.
  intros HW. unfold newBuffer.
  replace (W <? 0) with false by (symmetry; apply Z.ltb_ge; lia).
  destruct (writeAll_keeps_shape ws
              (with_indent (mkBuffer W 0 0 [[]] (mkPos 0 0)) k) [] [])
    as (b & lines & l & Hrun & Hw & Hi & Hd & Hc & Hcol & Hlen & _);
    [exact HW|reflexivity|reflexivity|].
  eexists _, b, lines, l. split; [reflexivity|].
  repeat split; try assumption.
  - unfold cursor. rewrite Hc, Hcol. unfold len. rewrite length_app.
    cbn [length]. f_equal. lia.
  - cbn [length] in Hlen. lia.
Qed.

(** X11. Nothing is lost.  On a fresh buffer without indent, the cells of the
    lines, in reading order, are the cells of the runes written that are
    printable and not line feeds, each with its width and its attribute:
    wrapping only decides on which line a cell is. *)
Theorem writeAll_cells (W : Z) (ws : list (rune * string)) :
  0 <= W ->
  exists b0 b,
    newBuffer W = Some b0
    /\ writeAll ws b0 = Some b
    /\ concat (cells b) = cellsOf ws.
Proof.
  intros HW. unfold newBuffer.
  replace (W <? 0) with false by (symmetry; apply Z.ltb_ge; lia).
  destruct (writeAll_keeps_shape ws (mkBuffer W 0 0 [[]] (mkPos 0 0)) [] [])
    as (b & lines & l & Hrun & _ & _ & _ & _ & _ & _ & Hcat);
    [exact HW|reflexivity|reflexivity|].
  eexists _, b. split; [reflexivity|]. split; [exact Hrun|].
  apply Hcat. cbn [indent]. lia.
Qed.
End BufferMore.

(** X12. [extend], once and in a row.  Extending a buffer by sub-buffers, of
    which some may be nil, appends their lines in order and leaves [width],
    [indent] and [dot] as they were; after one [extend] by a buffer with
    lines the cursor is on that buffer's last line, at its column. *)
Theorem extend_all (b : buffer) (subs : list (option buffer)) :
  cells (fold_left extend subs b)
    = cells b
      ++ flat_map (fun o => match o with Some b2 => cells b2 | None => [] end)
                  subs
  /\ width (fold_left extend subs b) = width b
  /\ indent (fold_left extend subs b) = indent b
  /\ dot (fold_left extend subs b) = dot b
  /\ forall b2 l ls, cells b2 = l :: ls ->
       cursor (extend b (Some b2))
       = mkPos (len (cells b) + len (cells b2) - 1) (col b2).
Proof.
  split; [|split; [|split; [|split]]].
  - revert b. induction subs as [|[b2|] subs IH]; intros b; cbn [fold_left].
    + cbn [flat_map]. rewrite app_nil_r. reflexivity.
    + rewrite IH. cbn [flat_map]. unfold extend.
      destruct (cells b2) as [|l ls] eqn:Hc2;
        [reflexivity|cbn [with_cells cells]; rewrite <- app_assoc; reflexivity].
    + rewrite IH. reflexivity.
  - revert b. induction subs as [|[b2|] subs IH]; intros b; cbn [fold_left];
      [reflexivity| |apply IH].
    rewrite IH. unfold extend. destruct (cells b2); reflexivity.
  - revert b. induction subs as [|[b2|] subs IH]; intros b; cbn [fold_left];
      [reflexivity| |apply IH].
    rewrite IH. unfold extend. destruct (cells b2); reflexivity.
  - revert b. induction subs as [|[b2|] subs IH]; intros b; cbn [fold_left];
      [reflexivity| |apply IH].
    rewrite IH. unfold extend. destruct (cells b2); reflexivity.
  - intros b2 l ls Hc2. unfold extend, cursor. rewrite Hc2.
    cbn [with_cells cells col]. unfold len. rewrite length_app.
    f_equal. lia.
Qed.

Section PaddingFacts.
Context `{WidthOracle}.

Lemma writes_spaces (n : nat) :
  IsPrint 32 = true -> wcwidth 32 = 1 ->
  forall (b : buffer) (a : string) lines l,
    col b + Z.of_nat n < width b -> 0 <= col b ->
    cells b = lines ++ [l] ->
    writes (replicate n 32) a b
    = Some (with_cells b (lines ++ [l ++ replicate n (mkCell 32 1 a)])
                       (col b + Z.of_nat n)).
Proof.
  intros Hp Hwd. induction n as [|n IH]; intros b a lines l Hroom Hcol Hc.
  - cbn [replicate writes]. rewrite app_nil_r, <- Hc, Z.add_0_r.
    destruct b; reflexivity.
  - cbn [replicate writes].
    rewrite (write_printable b 32 a lines l ltac:(lia) Hp ltac:(lia) Hc).
    rewrite Hwd.
    replace (col b + 1 >? width b) with false
      by (symmetry; rewrite Z.gtb_ltb; apply Z.ltb_ge; lia).
    replace (col b + 1 =? width b) with false
      by (symmetry; apply Z.eqb_neq; lia).
    cbn [mbind option_bind]. change (byte 1) with 1.
    rewrite (IH _ a lines (l ++ [mkCell 32 1 a]));
      cbn [with_cells cells col width]; try lia; [|reflexivity].
    unfold with_cells; cbn [width indent dot]. f_equal. f_equal.
    + lia.
    + rewrite <- app_assoc. reflexivity.
Qed.

(** X13. Padding.  [writePadding] panics on a negative count.  With a space
    that is printable and one column wide, a count [w >= 0] that leaves
    the line short of the width adds [w] space cells with the attribute to
    the last line and moves the column by [w]; no new line is begun. *)
Theorem writePadding_spaces (b : buffer) (w : Z) (a : string)
  (lines : list (list cell)) (l : list cell) :
  (w < 0 -> writePadding w a b = None)
  /\ (IsPrint 32 = true -> wcwidth 32 = 1 ->
      0 <= w -> 0 <= col b -> col b + w < width b ->
      cells b = lines ++ [l] ->
      writePadding w a b
      = Some (with_cells b
                (lines ++ [l ++ replicate (Z.to_nat w) (mkCell 32 1 a)])
                (col b + w))).
Proof.
  split.
  - intros Hw. unfold writePadding.
    replace (w <? 0) with true by (symmetry; apply Z.ltb_lt; lia).
    reflexivity.
  - intros Hp Hwd Hw Hcol Hroom Hc. unfold writePadding.
    replace (w <? 0) with false by (symmetry; apply Z.ltb_ge; lia).
    rewrite (writes_spaces (Z.to_nat w) Hp Hwd b a lines l) by (lia || exact Hc).
    rewrite Z2Nat.id by lia. reflexivity.
Qed.
End PaddingFacts.

(** * Further properties of the screen writer *)










Lemma commitLine_plain (l : list cell) :
  Forall (fun c => cell_attr c = "") l ->
  forall out, commitLine (out, "") l = (out +:+ plainLine l, "").
Proof.
  unfold commitLine.
  induction 1 as [|c l Hc _ IH]; intros out; cbn [fold_left plainLine foldr].
  - rewrite string_app_nil_r. reflexivity.
  - unfold commitCell at 2. rewrite Hc. cbn [String.eqb negb].
    rewrite andb_false_r. rewrite IH.
    fold (plainLine l). rewrite string_app_assoc. reflexivity.
Qed.

Lemma commitLines_plain (ls : list (list cell)) :
  Forall (Forall (fun c => cell_attr c = "")) ls ->
  forall i out,
    commitLines (S i) ls (out, "")
    = (out +:+ foldr (fun l' s => chr 10 +:+ plainLine l' +:+ s) "" ls, "").
Proof.
  induction 1 as [|l ls Hl _ IH]; intros i out; cbn [commitLines foldr].
  - rewrite string_app_nil_r. reflexivity.
  - unfold lineStart. cbn [Nat.ltb Nat.leb fst snd].
    rewrite (commitLine_plain l Hl), IH.
    rewrite !string_app_assoc. reflexivity.
Qed.

(** X16. A buffer without attributes.  When no cell has an attribute, the
    bytes of the commit are the head (cursor up, carriage return, erase),
    the code points of the lines separated by line feeds, and the cursor
    motion: no SGR sequence at all. *)
Theorem commit_plain (oldBuf buf : buffer) :
  Forall (Forall (fun c => cell_attr c = "")) (cells buf) ->
  commitBytes oldBuf buf
  = commitHead oldBuf +:+ plainLines (cells buf)
    +:+ deltaPos (cursor buf) (dot buf).
Proof.
  intros Hall. unfold commitBytes, plainLines.
  destruct (cells buf) as [|l ls] eqn:Hc; cbn [commitLines].
  - unfold commitTail. cbn [String.eqb negb]. reflexivity.
  - apply Forall_cons_1 in Hall as [Hl Hls].
    unfold lineStart. cbn [Nat.ltb Nat.leb].
    rewrite (commitLine_plain l Hl), (commitLines_plain ls Hls).
    unfold commitTail. cbn [String.eqb negb].
    rewrite !string_app_assoc. reflexivity.
Qed.

(** X17. Bytes counted and bytes sent.  For a valid code point the byte
    count of [utf8.RuneLen], by which [refresh] advances its counter, is
    the number of bytes that the commit sends for the rune; a rune that is
    not a code point counts as [-1] and is sent as the three bytes of
    U+FFFD. *)
Theorem encodeRune_length (r : rune) :
  Z.of_nat (String.length (encodeRune r))
  = if RuneLen r =? -1 then 3 else RuneLen r.
Proof.
  unfold encodeRune, RuneLen.
  destruct (Z.ltb_spec r 0); cbn [orb]; [reflexivity|].
  destruct (Z.ltb_spec 1114111 r); cbn [orb].
  - destruct (Z.leb_spec r 127); [lia|].
    destruct (Z.leb_spec r 2047); [lia|].
    destruct (Z.leb_spec 55296 r), (Z.leb_spec r 57343); cbn [andb];
      try lia.
    destruct (Z.leb_spec r 65535); [lia|].
    destruct (Z.leb_spec r 1114111); [lia|]. reflexivity.
  - destruct (Z.leb_spec 55296 r), (Z.leb_spec r 57343); cbn [andb].
    + destruct (Z.leb_spec r 127); [lia|].
      destruct (Z.leb_spec r 2047); [lia|]. reflexivity.
    + destruct (Z.leb_spec r 127); [reflexivity|].
      destruct (Z.leb_spec r 2047); [reflexivity|].
      destruct (Z.leb_spec r 65535); [reflexivity|].
      destruct (Z.leb_spec r 1114111); [reflexivity|lia].
    + destruct (Z.leb_spec r 127); [reflexivity|].
      destruct (Z.leb_spec r 2047); [reflexivity|].
      destruct (Z.leb_spec r 65535); [reflexivity|lia].
    + lia.
Qed.

(** * Further properties of the line buffer of [refresh] *)

Section RefreshMore.
Context `{WidthOracle} `{Attrs}.

Lemma refreshRune_dot (bs : editorState) (tok : token) (r : rune)
  (b b' : buffer) (i i' : Z) (s s' : bool) :
  refreshRune bs tok (b, i, s) r = Some (b', i', s') ->
  i' = i + RuneLen r /\ (es_dot bs = i' -> dot b' = cursor b').
Proof.
  unfold refreshRune.
  destruct (if s then _ else _) as [silent|];
    cbn [mbind option_bind]; [|discriminate].
  destruct (if silent then _ else _) as [b1|];
    cbn [mbind option_bind]; [|discriminate].
  destruct (match es_completion bs with Some _ => _ | None => _ end)
    as [[b2 s2]|]; cbn [mbind option_bind]; [|discriminate].
  intros [= <- <- <-]. split; [reflexivity|].
  intros Hd. rewrite Hd, Z.eqb_refl. reflexivity.
Qed.

Lemma refreshToken_dot (bs : editorState) (tok : token) (rs : text) :
  forall b i s b' i' s',
    refreshToken bs tok rs (b, i, s) = Some (b', i', s') ->
    (es_dot bs = i -> dot b = cursor b) ->
    i' = i + foldr (fun r m => RuneLen r + m) 0 rs
    /\ (es_dot bs = i' -> dot b' = cursor b').
Proof.
  induction rs as [|r rs IH]; intros b i s b' i' s'; cbn [refreshToken foldr].
  - intros [= <- <- <-] Hinit. split; [lia|exact Hinit].
  - destruct (refreshRune bs tok (b, i, s) r) as [[[b1 i1] s1]|] eqn:Hstep;
      cbn [mbind option_bind]; [|discriminate].
    intros Hrest _. apply refreshRune_dot in Hstep as [-> Hd1].
    destruct (IH _ _ _ _ _ _ Hrest Hd1) as [-> Hd']. split; [lia|exact Hd'].
Qed.

Lemma refreshTokens_dot (bs : editorState) (toks : list token) :
  forall b i s b' i' s',
    refreshTokens bs toks (b, i, s) = Some (b', i', s') ->
    (es_dot bs = i -> dot b = cursor b) ->
    i' = i + textBytes toks
    /\ (es_dot bs = i' -> dot b' = cursor b').
Proof.
  induction toks as [|tok toks IH]; intros b i s b' i' s';
    cbn [refreshTokens textBytes foldr].
  - intros [= <- <- <-] Hinit. split; [lia|exact Hinit].
  - destruct (refreshToken bs tok (Val tok) (b, i, s)) as [[[b1 i1] s1]|] eqn:Htok;
      cbn [mbind option_bind]; [|discriminate].
    intros Hrest Hinit.
    destruct (refreshToken_dot _ _ _ _ _ _ _ _ _ Htok Hinit) as [-> Hd1].
    destruct (IH _ _ _ _ _ _ Hrest Hd1) as [-> Hd'].
    fold (textBytes toks). split; [lia|exact Hd'].
Qed.

(** X18. The cursor at the end of the text.  When the edit cursor is at the
    byte count of the whole text, as [refresh] counts it, the dot of the
    line buffer is the cursor of the buffer after the last rune (and after
    the candidate, if one was written there). *)
Theorem refreshLine_dot_at_end (cols : Z) (bs : editorState) (b : buffer) :
  refreshLine cols bs = Some b ->
  es_dot bs = textBytes (tokens bs) ->
  dot b = cursor b.
Proof.
  unfold refreshLine. intros Hrun Hdot.
  destruct (newBuffer cols) as [b0|]; cbn [mbind option_bind] in Hrun;
    [|discriminate].
  destruct (writes (prompt bs) attrForPrompt b0) as [b1|];
    cbn [mbind option_bind] in Hrun; [|discriminate].
  destruct (refreshTokens bs (tokens bs) _) as [[[b2 i2] s2]|] eqn:Htoks;
    cbn [mbind option_bind] in Hrun; [|discriminate].
  injection Hrun as <-.
  apply refreshTokens_dot in Htoks as [-> Hd].
  - apply Hd. lia.
  - intros Hz. rewrite Hz. cbn [Z.eqb]. reflexivity.
Qed.
End RefreshMore.

Section RefreshFits.
Context `{WidthOracle} `{Attrs}.

(** One call of [write] keeps the invariant and a column that is not
    negative, with the widths 0, 1 and 2 and room for a cell of two columns
    after the indent. *)
Lemma write_keeps_room (W k : Z) (b : buffer) (r : rune) (a : string) :
  (forall r, 0 <= wcwidth r <= 2) -> 0 <= k -> k + 2 <= W ->
  buffer_ok W k b -> 0 <= col b ->
  exists b', write r a b = Some b' /\ buffer_ok W k b' /\ 0 <= col b'.
Proof.
  intros Hwc Hk HkW Hok Hcol.
  assert (Hfit : r <> 10 -> IsPrint r = true ->
                 0 <= wcwidth r /\ k + wcwidth r <= W)
    by (intros _ _; specialize (Hwc r); lia).
  destruct (write_keeps_ok W k b r a ltac:(lia) Hfit Hok)
    as (b' & Hrun & Hok').
  exists b'. split; [exact Hrun|]. split; [exact Hok'|].
  destruct Hok as (HW & Hind & lines & l & Hc & _ & _).
  assert (Hb : 0 <= byte (wcwidth r) <= wcwidth r)
    by (apply byte_bounds; specialize (Hwc r); lia).
  destruct (write_cases b r a lines l ltac:(lia) Hc)
    as [[_ [Hr|Hr]]|[_ [Hr|[Hr|Hr]]]];
    rewrite Hr in Hrun; injection Hrun as <-;
    cbn [with_cells col]; lia.
Qed.

Lemma writes_keeps_room (W k : Z) (s : text) (a : string) :
  (forall r, 0 <= wcwidth r <= 2) -> 0 <= k -> k + 2 <= W ->
  forall b, buffer_ok W k b -> 0 <= col b ->
  exists b', writes s a b = Some b' /\ buffer_ok W k b' /\ 0 <= col b'.
Proof.
  intros Hwc Hk HkW. induction s as [|r s IH]; intros b Hok Hcol.
  - exists b. auto.
  - destruct (write_keeps_room W k b r a Hwc Hk HkW Hok Hcol)
      as (b1 & Hrun1 & Hok1 & Hcol1).
    destruct (IH b1 Hok1 Hcol1) as (b2 & Hrun2 & Hok2 & Hcol2).
    exists b2. cbn [writes]. rewrite Hrun1. auto.
Qed.

Lemma writeParts_keeps_room (W k : Z) (comp : completion)
  (ps : list candidatePart) :
  (forall r, 0 <= wcwidth r <= 2) -> 0 <= k -> k + 2 <= W ->
  forall b, buffer_ok W k b -> 0 <= col b ->
  exists b', writeParts ps comp b = Some b' /\ buffer_ok W k b' /\ 0 <= col b'.
Proof.
  intros Hwc Hk HkW. induction ps as [|part ps IH]; intros b Hok Hcol.
  - exists b. auto.
  - cbn [writeParts].
    destruct (writes_keeps_room W k (part_text part)
                (if completed part
                 then attrForType (typ comp) +:+ attrForCompleted
                 else attrForType (typ comp)) Hwc Hk HkW b Hok Hcol)
      as (b1 & Hrun1 & Hok1 & Hcol1).
    rewrite Hrun1. cbn [mbind option_bind]. apply IH; assumption.
Qed.

Lemma with_dot_ok (W k : Z) (b : buffer) (p : pos) :
  buffer_ok W k b -> buffer_ok W k (with_dot b p).
Proof.
  intros Hok. exact Hok.
Qed.

Lemma index_in_range {A} (l : list A) (i : Z) :
  0 <= i < len l -> exists x, index l i = Some x.
Proof.
  intros Hi. unfold index.
  replace (i <? 0) with false by (symmetry; apply Z.ltb_ge; lia).
  apply lookup_lt_is_Some. unfold len in Hi. lia.
Qed.

Lemma refreshRune_keeps_room (W k : Z) (bs : editorState) (tok : token)
  (r : rune) (b : buffer) (i : Z) (s : bool) :
  (forall r, 0 <= wcwidth r <= 2) -> 0 <= k -> k + 2 <= W ->
  selection_ok bs ->
  buffer_ok W k b -> 0 <= col b ->
  (s = true -> es_completion bs <> None) ->
  exists b' i' s',
    refreshRune bs tok (b, i, s) r = Some (b', i', s')
    /\ buffer_ok W k b' /\ 0 <= col b'
    /\ (s' = true -> es_completion bs <> None).
Proof.
  intros Hwc Hk HkW Hsel Hok Hcol Hs. unfold refreshRune.
  assert (Hsilent : exists silent,
    (if s then match es_completion bs with
               | Some comp => Some (i <? end_ comp)
               | None => None
               end
     else Some false) = Some silent).
  { destruct s; [|eauto].
    destruct (es_completion bs); [eauto|]. exfalso. apply Hs; reflexivity. }
  destruct Hsilent as [silent ->]. cbn [mbind option_bind].
  assert (Hb1 : exists b1,
    (if silent then Some b else write r (attrForType (Typ tok)) b) = Some b1
    /\ buffer_ok W k b1 /\ 0 <= col b1).
  { destruct silent; [eauto|].
    apply write_keeps_room; assumption. }
  destruct Hb1 as (b1 & -> & Hok1 & Hcol1). cbn [mbind option_bind].
  destruct (es_completion bs) as [comp|] eqn:Hcomp.
  - destruct (negb (current comp =? -1) && (i + RuneLen r =? start comp))
      eqn:Hat.
    + apply andb_true_iff in Hat as [Hcur _].
      apply negb_true_iff, Z.eqb_neq in Hcur.
      destruct (Hsel comp Hcomp) as [Hnone|Hin]; [contradiction|].
      destruct (index_in_range _ _ Hin) as [cand ->].
      cbn [mbind option_bind].
      destruct (writeParts_keeps_room W k comp (parts cand) Hwc Hk HkW b1 Hok1 Hcol1)
        as (b2 & -> & Hok2 & Hcol2).
      cbn [mbind option_bind]. eexists _, _, _. split; [reflexivity|].
      split; [|split; [|discriminate]];
        destruct (es_dot bs =? i + RuneLen r); assumption.
    + cbn [mbind option_bind]. eexists _, _, _. split; [reflexivity|].
      split; [|split; [|discriminate]];
        destruct (es_dot bs =? i + RuneLen r); assumption.
  - cbn [mbind option_bind]. eexists _, _, _. split; [reflexivity|].
    split; [|split; [|exact Hs]];
      destruct (es_dot bs =? i + RuneLen r); assumption.
Qed.

Lemma refreshToken_keeps_room (W k : Z) (bs : editorState) (tok : token)
  (rs : text) :
  (forall r, 0 <= wcwidth r <= 2) -> 0 <= k -> k + 2 <= W ->
  selection_ok bs ->
  forall b i s,
    buffer_ok W k b -> 0 <= col b ->
    (s = true -> es_completion bs <> None) ->
    exists b' i' s',
      refreshToken bs tok rs (b, i, s) = Some (b', i', s')
      /\ buffer_ok W k b' /\ 0 <= col b'
      /\ (s' = true -> es_completion bs <> None).
Proof.
  intros Hwc Hk HkW Hsel.
  induction rs as [|r rs IH]; intros b i s Hok Hcol Hs; cbn [refreshToken].
  - eexists _, _, _. eauto.
  - destruct (refreshRune_keeps_room W k bs tok r b i s Hwc Hk HkW Hsel Hok Hcol Hs)
      as (b1 & i1 & s1 & -> & Hok1 & Hcol1 & Hs1).
    cbn [mbind option_bind]. apply IH; assumption.
Qed.

Lemma refreshTokens_keeps_room (W k : Z) (bs : editorState)
  (toks : list token) :
  (forall r, 0 <= wcwidth r <= 2) -> 0 <= k -> k + 2 <= W ->
  selection_ok bs ->
  forall b i s,
    buffer_ok W k b -> 0 <= col b ->
    (s = true -> es_completion bs <> None) ->
    exists b' i' s',
      refreshTokens bs toks (b, i, s) = Some (b', i', s')
      /\ buffer_ok W k b' /\ 0 <= col b'.
Proof.
  intros Hwc Hk HkW Hsel.
  induction toks as [|tok toks IH]; intros b i s Hok Hcol Hs;
    cbn [refreshTokens].
  - eexists _, _, _. eauto.
  - destruct (refreshToken_keeps_room W k bs tok (Val tok) Hwc Hk HkW Hsel
                b i s Hok Hcol Hs)
      as (b1 & i1 & s1 & -> & Hok1 & Hcol1 & Hs1).
    cbn [mbind option_bind]. apply IH; assumption.
Qed.

Lemma refreshLine_ok (cols : Z) (bs : editorState) :
  2 <= cols -> (forall r, 0 <= wcwidth r <= 2) -> selection_ok bs ->
  exists b k, refreshLine cols bs = Some b /\ buffer_ok cols k b.
Proof.
  intros Hcols Hwc Hsel. unfold refreshLine, newBuffer.
  replace (cols <? 0) with false by (symmetry; apply Z.ltb_ge; lia).
  cbn [mbind option_bind].
  destruct (writes_keeps_room cols 0 (prompt bs) attrForPrompt Hwc
              ltac:(lia) ltac:(lia) (mkBuffer cols 0 0 [[]] (mkPos 0 0)))
    as (b1 & -> & Hok1 & Hcol1).
  { unfold buffer_ok; cbn [width indent cells col].
    split; [reflexivity|]. split; [reflexivity|].
    exists [], []. split; [reflexivity|]. split; [reflexivity|].
    constructor; [cbn; lia|constructor]. }
  { cbn [col]. lia. }
  cbn [mbind option_bind].
  destruct Hok1 as (HW1 & Hind1 & Hshape1).
  set (b2 := if col b1 * 2 <? width b1 then with_indent b1 (col b1) else b1).
  assert (Hb2 : exists k, 0 <= k /\ k + 2 <= cols
                          /\ buffer_ok cols k b2 /\ 0 <= col b2).
  { unfold b2. destruct (Z.ltb_spec (col b1 * 2) (width b1)) as [Hlt|Hge].
    - exists (col b1). split; [lia|]. split; [lia|].
      split; [|exact Hcol1].
      unfold buffer_ok, with_indent; cbn [width indent cells col].
      split; [exact HW1|]. split; [reflexivity|]. exact Hshape1.
    - exists 0. split; [lia|]. split; [lia|].
      split; [|exact Hcol1].
      unfold buffer_ok. split; [exact HW1|]. split; [exact Hind1|].
      exact Hshape1. }
  destruct Hb2 as (k & Hk & HkW & Hok2 & Hcol2).
  destruct (refreshTokens_keeps_room cols k bs (tokens bs) Hwc Hk HkW Hsel
              (if es_dot bs =? 0 then with_dot b2 (cursor b2) else b2) 0 false)
    as (b3 & i3 & s3 & -> & Hok3 & _).
  { destruct (es_dot bs =? 0); exact Hok2. }
  { destruct (es_dot bs =? 0); exact Hcol2. }
  { discriminate. }
  cbn [mbind option_bind]. exists b3, k. split; [reflexivity|exact Hok3].
Qed.

(** X19. The line buffer fits the terminal.  On a terminal of at least two
    columns, with the widths 0, 1 and 2 of the width oracle and a
    completion that selects no candidate or one of its list, the line part
    of [refresh] runs without a panic and builds a buffer of the terminal's
    width in which no line is wider than the terminal, whatever the prompt,
    the text and the candidate. *)
Theorem refreshLine_fits (cols : Z) (bs : editorState) :
  2 <= cols -> (forall r, 0 <= wcwidth r <= 2) -> selection_ok bs ->
  exists b, refreshLine cols bs = Some b /\ width b = cols /\ fits b.
Proof.
  intros Hcols Hwc Hsel.
  destruct (refreshLine_ok cols bs Hcols Hwc Hsel)
    as (b & k & Hrun & HW & _ & lines & l & Hc & _ & Hall).
  exists b. split; [exact Hrun|]. split; [exact HW|].
  unfold fits. rewrite Hc, HW. exact Hall.
Qed.
End RefreshFits.

(** * Properties of the rest of [refresh] *)

Lemma elem_of_upto (n x : Z) : x ∈ upto n <-> 0 <= x < n.
Proof.
  unfold upto. rewrite elem_of_seqZ. lia.
Qed.

Lemma elem_of_flat_map {A B} (f : A -> list B) (l : list A) (y : B) :
  y ∈ flat_map f l <-> exists x, x ∈ l /\ y ∈ f x.
Proof.
  rewrite list_elem_of_In, in_flat_map. split.
  - intros (x & Hx & Hy). exists x. rewrite !list_elem_of_In. auto.
  - intros (x & Hx & Hy). exists x. rewrite <- !list_elem_of_In. auto.
Qed.

Lemma NoDup_flat_map {A B} (f : A -> list B) (l : list A) :
  NoDup l ->
  (forall x, x ∈ l -> NoDup (f x)) ->
  (forall x1 x2 y, x1 ∈ l -> x2 ∈ l -> y ∈ f x1 -> y ∈ f x2 -> x1 = x2) ->
  NoDup (flat_map f l).
Proof.
  induction 1 as [|x l Hx Hl IH]; intros Hf Hdisj; cbn [flat_map].
  - constructor.
  - apply NoDup_app. split; [apply Hf; left|]. split.
    + intros y Hy Hin. apply elem_of_flat_map in Hin as (x2 & Hx2 & Hy2).
      apply Hx. rewrite (Hdisj x x2 y); auto; [left|right; exact Hx2].
    + apply IH.
      * intros x' Hx'. apply Hf. right. exact Hx'.
      * intros x1 x2 y H1 H2. apply Hdisj; right; assumption.
Qed.

Lemma elem_of_gridOrder (lines cols n k : Z) :
  k ∈ gridOrder lines cols n <->
  exists i j, 0 <= i < lines /\ 0 <= j < cols /\ k = j * lines + i /\ k < n.
Proof.
  unfold gridOrder. rewrite elem_of_flat_map. split.
  - intros (i & Hi & Hk). apply elem_of_upto in Hi.
    apply elem_of_flat_map in Hk as (j & Hj & Hk). apply elem_of_upto in Hj.
    cbv zeta in Hk. destruct (Z.geb_spec (j * lines + i) n) as [Hge|Hlt].
    + apply elem_of_nil in Hk. contradiction.
    + apply list_elem_of_singleton in Hk. exists i, j.
      repeat split; lia.
  - intros (i & j & Hi & Hj & -> & Hlt). exists i.
    split; [apply elem_of_upto; exact Hi|].
    apply elem_of_flat_map. exists j.
    split; [apply elem_of_upto; exact Hj|].
    cbv zeta. destruct (Z.geb_spec (j * lines + i) n) as [Hge|_]; [lia|].
    apply list_elem_of_singleton. reflexivity.
Qed.

(** X20. The grid of the completion menu.  With at least one column and
    rows enough for the candidates ([n <= lines * cols], what rounding the
    quotient up gives), the loops over rows and columns come to every
    candidate index from 0 to [n - 1] exactly once. *)
Theorem gridOrder_covers (lines cols n : Z) :
  1 <= cols -> n <= lines * cols ->
  NoDup (gridOrder lines cols n)
  /\ forall k, k ∈ gridOrder lines cols n <-> 0 <= k < n.
Proof.
  intros Hcols Hn. split.
  - unfold gridOrder. apply NoDup_flat_map.
    + apply NoDup_seqZ.
    + intros i Hi. apply NoDup_flat_map.
      * apply NoDup_seqZ.
      * intros j _. cbv zeta. destruct (j * lines + i >=? n);
          [constructor|apply NoDup_singleton].
      * intros j1 j2 y Hj1 Hj2. cbv zeta.
        apply elem_of_upto in Hi.
        destruct (j1 * lines + i >=? n); [intros Hy; apply elem_of_nil in Hy; contradiction|].
        destruct (j2 * lines + i >=? n); [intros _ Hy; apply elem_of_nil in Hy; contradiction|].
        intros Hy1 Hy2. apply list_elem_of_singleton in Hy1, Hy2. nia.
    + intros i1 i2 y Hi1 Hi2 Hy1 Hy2.
      apply elem_of_upto in Hi1, Hi2.
      apply elem_of_flat_map in Hy1 as (j1 & Hj1 & Hy1).
      apply elem_of_flat_map in Hy2 as (j2 & Hj2 & Hy2).
      apply elem_of_upto in Hj1, Hj2. cbv zeta in Hy1, Hy2.
      destruct (j1 * lines + i1 >=? n); [apply elem_of_nil in Hy1; contradiction|].
      destruct (j2 * lines + i2 >=? n); [apply elem_of_nil in Hy2; contradiction|].
      apply list_elem_of_singleton in Hy1, Hy2. subst y.
      assert (Hj : j1 = j2) by nia. subst j2. lia.
  - intros k. rewrite elem_of_gridOrder. split.
    + intros (i & j & Hi & Hj & -> & Hlt). split; [nia|exact Hlt].
    + intros Hk. assert (Hlines : 1 <= lines) by nia.
      exists (k mod lines), (k / lines).
      pose proof (Z.mod_pos_bound k lines ltac:(lia)) as Hmod.
      pose proof (Z.div_mod k lines ltac:(lia)) as Hdm.
      split; [exact Hmod|]. split.
      * split; [apply Z.div_pos; lia|].
        apply Z.div_lt_upper_bound; [lia|nia].
      * split; [lia|lia].
Qed.

Section ShapeFacts.
Context `{WidthOracle}.

Lemma writes_writeAll (s : text) (a : string) :
  forall b, writes s a b = writeAll (styled a s) b.
Proof.
  induction s as [|r s IH]; intros b; cbn [writes styled map writeAll];
    [reflexivity|].
  destruct (write r a b) as [b1|]; cbn [mbind option_bind]; [|reflexivity].
  apply IH.
Qed.

Lemma writes_keeps_shape (s : text) (a : string) (b : buffer) :
  buffer_shape b ->
  exists b',
    writes s a b = Some b' /\ buffer_shape b'
    /\ width b' = width b /\ indent b' = indent b /\ dot b' = dot b
    /\ (indent b <= 0 ->
        concat (cells b') = concat (cells b) ++ cellsOf (styled a s)).
Proof.
  intros (Hw & lines & l & Hc & Hcol). rewrite writes_writeAll.
  destruct (writeAll_keeps_shape (styled a s) b lines l Hw Hc Hcol)
    as (b' & lines' & l' & Hrun & Hw' & Hi' & Hd' & Hc' & Hcol' & _ & Hcat).
  exists b'. split; [exact Hrun|]. split.
  - split; [lia|]. exists lines', l'. auto.
  - auto.
Qed.

Lemma writePadding_keeps_shape (w : Z) (a : string) (b : buffer) :
  0 <= w -> buffer_shape b ->
  exists b',
    writePadding w a b = Some b' /\ buffer_shape b'
    /\ width b' = width b /\ indent b' = indent b /\ dot b' = dot b
    /\ (indent b <= 0 ->
        concat (cells b')
        = concat (cells b) ++ cellsOf (styled a (replicate (Z.to_nat w) 32))).
Proof.
  intros Hw Hshape. unfold writePadding.
  replace (w <? 0) with false by (symmetry; apply Z.ltb_ge; lia).
  apply writes_keeps_shape. exact Hshape.
Qed.

Lemma newline_keeps_shape (b : buffer) :
  buffer_shape b ->
  exists b',
    newline b = Some b' /\ buffer_shape b'
    /\ width b' = width b /\ indent b' = indent b /\ dot b' = dot b
    /\ (indent b <= 0 -> concat (cells b') = concat (cells b)).
Proof.
  intros (Hw & lines & l & Hc & Hcol). rewrite newline_eq by exact Hw.
  eexists. split; [reflexivity|]. cbn [with_cells width indent dot cells col].
  split; [|repeat split].
  - split; [exact Hw|].
    exists (cells b), (replicate (Z.to_nat (indent b)) space).
    split; [reflexivity|]. rewrite lineWidth_pad. cbn [with_cells col]. lia.
  - intros Hk. replace (Z.to_nat (indent b)) with 0%nat by lia.
    rewrite concat_app. cbn [replicate concat app]. rewrite app_nil_r.
    reflexivity.
Qed.

Lemma newBuffer_shape (W : Z) :
  0 <= W ->
  exists b,
    newBuffer W = Some b /\ buffer_shape b /\ width b = W /\ indent b = 0
    /\ dot b = mkPos 0 0 /\ cells b = [[]].
Proof.
  intros HW. unfold newBuffer.
  replace (W <? 0) with false by (symmetry; apply Z.ltb_ge; lia).
  eexists. split; [reflexivity|]. cbn [width indent dot cells].
  split; [|auto]. split; [exact HW|]. exists [], []. auto.
Qed.

Lemma cellsOf_app (ws1 ws2 : list (rune * string)) :
  cellsOf (ws1 ++ ws2) = cellsOf ws1 ++ cellsOf ws2.
Proof.
  unfold cellsOf. apply flat_map_app.
Qed.

(** A loop whose rounds keep an invariant and add cells adds the cells of
    all its rounds. *)
Lemma forEach_cells {A} (Inv : buffer -> Prop) (f : A -> buffer -> option buffer)
  (g : A -> list cell) (l : list A) :
  (forall x b, x ∈ l -> Inv b ->
     exists b', f x b = Some b' /\ Inv b'
                /\ concat (cells b') = concat (cells b) ++ g x) ->
  forall b, Inv b ->
    exists b', forEach f l b = Some b' /\ Inv b'
               /\ concat (cells b') = concat (cells b) ++ flat_map g l.
Proof.
  induction l as [|x l IH]; intros Hf b Hinv; cbn [forEach flat_map].
  - exists b. rewrite app_nil_r. auto.
  - destruct (Hf x b ltac:(left) Hinv) as (b1 & -> & Hinv1 & Hcat1).
    cbn [mbind option_bind].
    destruct (IH (fun x' b' Hx' => Hf x' b' (list_elem_of_further _ _ _ Hx')) b1 Hinv1)
      as (b2 & Hrun2 & Hinv2 & Hcat2).
    exists b2. split; [exact Hrun2|]. split; [exact Hinv2|].
    rewrite Hcat2, Hcat1, app_assoc. reflexivity.
Qed.
End ShapeFacts.

Section CompletionFacts.
Context `{WidthOracle} `{RefreshNames}.

Lemma colWidthOf_from (cands : list candidate) :
  forall c0,
    c0 <= fold_left (fun a cand =>
                       if a <? wcwidths (cand_text cand)
                       then wcwidths (cand_text cand) else a) cands c0
    /\ forall cand, cand ∈ cands ->
         wcwidths (cand_text cand)
         <= fold_left (fun a cand =>
                         if a <? wcwidths (cand_text cand)
                         then wcwidths (cand_text cand) else a) cands c0.
Proof.
  induction cands as [|c cands IH]; intros c0; cbn [fold_left].
  - split; [lia|]. intros cand Hin. apply elem_of_nil in Hin. contradiction.
  - destruct (IH (if c0 <? wcwidths (cand_text c)
                  then wcwidths (cand_text c) else c0)) as [Hge Hall].
    destruct (Z.ltb_spec c0 (wcwidths (cand_text c))) as [Hlt|Hle].
    + split; [lia|]. intros cand Hin.
      apply elem_of_cons in Hin as [->|Hin]; [exact Hge|apply Hall; exact Hin].
    + split; [lia|]. intros cand Hin.
      apply elem_of_cons in Hin as [->|Hin]; [lia|apply Hall; exact Hin].
Qed.

(** The width of a column is not negative and no candidate is wider. *)
Lemma colWidthOf_ge (cands : list candidate) :
  0 <= colWidthOf cands
  /\ forall cand, cand ∈ cands -> wcwidths (cand_text cand) <= colWidthOf cands.
Proof.
  apply colWidthOf_from.
Qed.

Lemma index_elem_of {A} (l : list A) (i : Z) (x : A) :
  index l i = Some x -> x ∈ l.
Proof.
  unfold index. destruct (i <? 0); [discriminate|].
  apply list_elem_of_lookup_2.
Qed.

Lemma completionCell_cells (W : Z) (comp : completion) (lines i j : Z)
  (b : buffer) :
  0 <= i -> 0 <= j -> 0 <= lines -> menu_ok W b ->
  exists b',
    completionCell comp (colWidthOf (candidates comp)) lines i j b = Some b'
    /\ menu_ok W b'
    /\ concat (cells b')
       = concat (cells b)
         ++ flat_map (fun k => cellsOf (entryWrites comp
                                          (colWidthOf (candidates comp)) k))
              (if j * lines + i >=? len (candidates comp) then []
               else [j * lines + i]).
Proof.
  intros Hi Hj Hlines (Hshape & Hind & HW). unfold completionCell.
  destruct (Z.geb_spec (j * lines + i) (len (candidates comp))) as [Hge|Hlt].
  - exists b. cbn [flat_map]. rewrite app_nil_r. unfold menu_ok. auto.
  - assert (Hk : 0 <= j * lines + i < len (candidates comp)) by nia.
    destruct (index_in_range (candidates comp) (j * lines + i) Hk)
      as [cand Hcand].
    rewrite Hcand. cbn [mbind option_bind flat_map]. rewrite app_nil_r.
    unfold entryWrites. rewrite Hcand.
    set (attr := if j * lines + i =? current comp
                 then attrForCurrentCompletion else "").
    pose proof (proj2 (colWidthOf_ge (candidates comp)) cand
                  (index_elem_of _ _ _ Hcand)) as Hwide.
    destruct (writes_keeps_shape (cand_text cand) attr b Hshape)
      as (b1 & -> & Hs1 & Hw1 & Hi1 & _ & Hcat1).
    cbn [mbind option_bind].
    assert (Hpad : 0 <= colWidthOf (candidates comp) - wcwidths (cand_text cand))
      by lia.
    destruct (writePadding_keeps_shape _ attr b1 Hpad Hs1)
      as (b2 & -> & Hs2 & Hw2 & Hi2 & _ & Hcat2).
    cbn [mbind option_bind].
    assert (Hmargin : 0 <= colMargin) by (unfold colMargin; lia).
    destruct (writePadding_keeps_shape colMargin "" b2 Hmargin Hs2)
      as (b3 & -> & Hs3 & Hw3 & Hi3 & _ & Hcat3).
    exists b3. split; [reflexivity|]. split.
    + unfold menu_ok. split; [exact Hs3|]. split; congruence.
    + rewrite Hcat3, Hcat2, Hcat1 by lia.
      rewrite !cellsOf_app, <- !app_assoc. reflexivity.
Qed.

Lemma completionRow_cells (W : Z) (comp : completion) (lines cols i : Z)
  (b : buffer) :
  0 <= i -> 0 <= lines -> menu_ok W b ->
  exists b',
    completionRow comp (colWidthOf (candidates comp)) lines cols i b = Some b'
    /\ menu_ok W b'
    /\ concat (cells b')
       = concat (cells b)
         ++ flat_map (fun j =>
              flat_map (fun k => cellsOf (entryWrites comp
                                            (colWidthOf (candidates comp)) k))
                (if j * lines + i >=? len (candidates comp) then []
                 else [j * lines + i]))
            (upto cols).
Proof.
  intros Hi Hlines Hok. unfold completionRow.
  assert (Hnl : exists b1,
    (if i >? 0 then newline b else Some b) = Some b1
    /\ menu_ok W b1 /\ concat (cells b1) = concat (cells b)).
  { destruct (i >? 0); [|eauto].
    destruct Hok as (Hshape & Hind & HW).
    destruct (newline_keeps_shape b Hshape)
      as (b1 & Hrun & Hs1 & Hw1 & Hi1 & _ & Hcat1).
    exists b1. split; [exact Hrun|]. split; [|apply Hcat1; lia].
    unfold menu_ok. split; [exact Hs1|]. split; congruence. }
  destruct Hnl as (b1 & -> & Hok1 & Hcat1). cbn [mbind option_bind].
  rewrite <- Hcat1.
  apply (forEach_cells (menu_ok W)); [|exact Hok1].
  intros j b' Hj Hok'. apply elem_of_upto in Hj.
  apply completionCell_cells; (lia || assumption).
Qed.

Lemma flat_map_flat_map {A B C} (f : A -> list B) (g : B -> list C)
  (l : list A) :
  flat_map g (flat_map f l) = flat_map (fun x => flat_map g (f x)) l.
Proof.
  induction l as [|x l IH]; cbn [flat_map]; [reflexivity|].
  rewrite flat_map_app, IH. reflexivity.
Qed.

Lemma refreshCompletion_runs (termCols : Z) (comp : completion) :
  0 <= termCols ->
  let colWidth := colWidthOf (candidates comp) in
  let cols := completionCols (mkBuffer termCols 0 0 [[]] (mkPos 0 0)) colWidth in
  let lines := CeilDiv (len (candidates comp)) cols in
  exists b,
    refreshCompletion termCols comp = Some b
    /\ width b = termCols
    /\ concat (cells b)
       = flat_map (fun k => cellsOf (entryWrites comp colWidth k))
                  (gridOrder lines cols (len (candidates comp))).
Proof.
  intros Hcols colWidth cols lines. unfold refreshCompletion, newBuffer.
  replace (termCols <? 0) with false by (symmetry; apply Z.ltb_ge; lia).
  cbn [mbind option_bind]. fold colWidth. fold cols. fold lines.
  destruct (forEach_cells (menu_ok termCols)
              (completionRow comp colWidth lines cols)
              (fun i =>
                 flat_map (fun j =>
                   flat_map (fun k => cellsOf (entryWrites comp colWidth k))
                     (if j * lines + i >=? len (candidates comp) then []
                      else [j * lines + i]))
                   (upto cols))
              (upto lines))
    with (b := mkBuffer termCols 0 0 [[]] (mkPos 0 0))
    as (b' & Hrun & (Hshape & Hind & HW) & Hcat).
  - intros i b Hi Hok. apply elem_of_upto in Hi.
    apply completionRow_cells; (lia || assumption).
  - unfold menu_ok. cbn [indent width]. split; [|auto].
    split; [cbn [width]; exact Hcols|]. exists [], []. auto.
  - exists b'. split; [exact Hrun|]. split; [exact HW|].
    rewrite Hcat. cbn [cells concat app]. unfold gridOrder.
    rewrite flat_map_flat_map. apply flat_map_ext. intros i.
    rewrite flat_map_flat_map. reflexivity.
Qed.

(** X21. The completion menu.  On a terminal of any width that is not
    negative, whatever the candidates, their widths and the number of rows
    that [CeilDiv] gives, [bufCompletion] is built without a panic (no
    padding is negative, no index out of range); and its cells, in reading
    order, are those of the entries of the grid in the order of the loops:
    for each one the text, the padding to the width of the column, and the
    margin. *)
Theorem refreshCompletion_cells (termCols : Z) (comp : completion) :
  0 <= termCols ->
  let colWidth := colWidthOf (candidates comp) in
  let cols := completionCols (mkBuffer termCols 0 0 [[]] (mkPos 0 0)) colWidth in
  let lines := CeilDiv (len (candidates comp)) cols in
  exists b,
    refreshCompletion termCols comp = Some b
    /\ width b = termCols
    /\ concat (cells b)
       = flat_map (fun k => cellsOf (entryWrites comp colWidth k))
                  (gridOrder lines cols (len (candidates comp))).
Proof.
  apply refreshCompletion_runs.
Qed.
End CompletionFacts.

Section RpromptFacts.
Context `{WidthOracle} `{Attrs} `{RefreshNames}.

Lemma writes_same_line (s : text) (a : string) :
  Forall (fun r => r <> 10 /\ IsPrint r = true /\ 0 <= wcwidth r < 256) s ->
  forall (b : buffer) lines l,
    0 <= col b -> cells b = lines ++ [l] ->
    col b + textWidth s < width b ->
    writes s a b
    = Some (with_cells b
              (lines ++ [l ++ map (fun r => mkCell r (wcwidth r) a) s])
              (col b + textWidth s)).
Proof.
  induction 1 as [|r s (Hr & Hp & Hwd) Hs IH]; intros b lines l Hcol Hc Hroom;
    cbn [writes map].
  - change (textWidth []) with 0. rewrite app_nil_r, Z.add_0_r, <- Hc.
    destruct b; reflexivity.
  - change (textWidth (r :: s)) with (wcwidth r + textWidth s) in *.
    assert (Hsum : 0 <= textWidth s).
    { clear -Hs. induction Hs as [|r' s' (_ & _ & Hwd') _ IH'];
        [cbn; lia|].
      change (textWidth (r' :: s')) with (wcwidth r' + textWidth s'). lia. }
    assert (Hw : 0 <= width b) by lia.
    rewrite (write_printable b r a lines l Hr Hp Hw Hc).
    replace (col b + wcwidth r >? width b) with false
      by (symmetry; rewrite Z.gtb_ltb; apply Z.ltb_ge; lia).
    replace (col b + wcwidth r =? width b) with false
      by (symmetry; apply Z.eqb_neq; lia).
    replace (byte (wcwidth r)) with (wcwidth r)
      by (unfold byte; rewrite Z.mod_small; lia).
    cbn [mbind option_bind].
    rewrite (IH _ lines (l ++ [mkCell r (wcwidth r) a]));
      cbn [with_cells cells col width]; try lia; [|reflexivity].
    unfold with_cells; cbn [width indent dot]. f_equal. f_equal.
    + lia.
    + rewrite <- app_assoc. reflexivity.
Qed.

(** X22. The right prompt.  It is left out when fewer than one column of
    padding would come before it.  Otherwise, with a right prompt of
    printable runes whose widths [wcwidths] sums, the padding and the
    prompt are added to the last line, no new line is begun, and the line
    ends one column short of the width of the terminal. *)
Theorem refreshRprompt_place (rp : text) (b : buffer)
  (lines : list (list cell)) (l : list cell) :
  let padding := width b - 1 - col b - wcwidths rp in
  (padding < 1 -> refreshRprompt rp b = Some b)
  /\ (1 <= padding ->
      IsPrint 32 = true -> wcwidth 32 = 1 ->
      Forall (fun r => r <> 10 /\ IsPrint r = true /\ 0 <= wcwidth r < 256) rp ->
      wcwidths rp = textWidth rp ->
      0 <= col b -> cells b = lines ++ [l] ->
      refreshRprompt rp b
      = Some (with_cells b
                (lines ++ [(l ++ replicate (Z.to_nat padding) (mkCell 32 1 ""))
                           ++ map (fun r => mkCell r (wcwidth r) attrForRprompt) rp])
                (width b - 1))).
Proof.
  intros padding. unfold refreshRprompt. fold padding. split.
  - intros Hlt.
    replace (padding >=? 1) with false
      by (symmetry; rewrite Z.geb_leb; apply Z.leb_gt; lia).
    reflexivity.
  - intros Hge Hp Hwd Hrp Hsum Hcol Hc.
    replace (padding >=? 1) with true
      by (symmetry; rewrite Z.geb_leb; apply Z.leb_le; lia).
    assert (Hw : 0 <= textWidth rp).
    { clear -Hrp. induction Hrp as [|r' s' (_ & _ & Hwd') _ IH'];
        [cbn; lia|].
      change (textWidth (r' :: s')) with (wcwidth r' + textWidth s'). lia. }
    unfold writePadding.
    replace (padding <? 0) with false by (symmetry; apply Z.ltb_ge; lia).
    rewrite (writes_spaces (Z.to_nat padding) Hp Hwd b "" lines l)
      by (unfold padding in *; lia || exact Hc).
    cbn [mbind option_bind].
    rewrite (writes_same_line rp attrForRprompt Hrp _ lines
               (l ++ replicate (Z.to_nat padding) (mkCell 32 1 "")));
      cbn [with_cells cells col width];
      [|lia|reflexivity|unfold padding in *; lia].
    unfold with_cells; cbn [width indent dot]. f_equal. f_equal.
    unfold padding in *. lia.
Qed.

Lemma extend_fields (b : buffer) (o : option buffer) :
  dot (extend b o) = dot b /\ width (extend b o) = width b.
Proof.
  unfold extend. destruct o as [b2|]; [|auto].
  destruct (cells b2); auto.
Qed.

Lemma refreshRprompt_runs (rp : text) (b : buffer) :
  buffer_shape b ->
  exists b', refreshRprompt rp b = Some b'
             /\ dot b' = dot b /\ width b' = width b.
Proof.
  intros Hshape. unfold refreshRprompt.
  destruct (Z.geb_spec (width b - 1 - col b - wcwidths rp) 1) as [Hge|Hlt];
    [|eauto].
  assert (Hpad : 0 <= width b - 1 - col b - wcwidths rp) by lia.
  destruct (writePadding_keeps_shape _ "" b Hpad Hshape)
    as (b1 & -> & Hs1 & Hw1 & _ & Hd1 & _).
  cbn [mbind option_bind].
  destruct (writes_keeps_shape rp attrForRprompt b1 Hs1)
    as (b2 & -> & _ & Hw2 & _ & Hd2 & _).
  exists b2. split; [reflexivity|]. split; congruence.
Qed.

Lemma refreshMode_runs (cols m : Z) :
  0 <= cols -> exists o, refreshMode cols m = Some o.
Proof.
  intros Hcols. unfold refreshMode.
  destruct (negb (m =? ModeInsert)); [|eauto].
  destruct (newBuffer_shape cols Hcols) as (b & -> & Hshape & _).
  cbn [mbind option_bind].
  destruct (m =? ModeCommand).
  - destruct (writes_keeps_shape commandLabel attrForMode b Hshape)
      as (b1 & -> & _). cbn [mbind option_bind]. eauto.
  - destruct (m =? ModeCompleting); [|cbn [mbind option_bind]; eauto].
    destruct (writes_keeps_shape completingLabel attrForMode b Hshape)
      as (b1 & -> & _). cbn [mbind option_bind]. eauto.
Qed.

Lemma refreshTips_runs (cols : Z) (ts : list text) :
  0 <= cols -> exists o, refreshTips cols ts = Some o.
Proof.
  intros Hcols. unfold refreshTips.
  destruct (len ts >? 0); [|eauto].
  destruct (newBuffer_shape cols Hcols) as (b & -> & Hshape & _).
  cbn [mbind option_bind].
  destruct (writes_keeps_shape (joinTips ts) attrForTip b Hshape)
    as (b1 & -> & _). cbn [mbind option_bind]. eauto.
Qed.

(** X23. [refresh] as a whole.  On a terminal of at least two columns, with
    the widths 0, 1 and 2 of the width oracle and a completion that selects
    no candidate or one of its list, [refresh] runs without a panic and
    calls [Write] once.  When the call succeeds, the buffer kept has the
    width of the terminal and the dot that was set on the line buffer: the
    right prompt, the mode, the tips and the menu do not move it.  When the
    call fails, the buffer kept is the one kept before. *)
Theorem refresh_runs (w : writer) (cols : Z) (bs : editorState)
  (more : editorRest) :
  2 <= cols -> (forall r, 0 <= wcwidth r <= 2) -> selection_ok bs ->
  exists bl w' err,
    refreshLine cols bs = Some bl
    /\ refresh w cols bs more = Some (w', err)
    /\ calls (file w') = S (calls (file w))
    /\ match err with
       | None => dot (oldBuf w') = dot bl /\ width (oldBuf w') = cols
       | Some _ => oldBuf w' = oldBuf w
       end.
Proof.
  intros Hcols Hwc Hsel.
  destruct (refreshLine_ok cols bs Hcols Hwc Hsel)
    as (bl & k & Hline & HW & _ & lines & l & Hc & Hcol & _).
  assert (Hshape : buffer_shape bl).
  { split; [lia|]. exists lines, l. auto. }
  destruct (refreshRprompt_runs (rprompt more) bl Hshape)
    as (bl' & Hrp & Hd' & Hw').
  destruct (refreshMode_runs cols (mode more) ltac:(lia)) as [bufMode Hmode].
  destruct (refreshTips_runs cols (tips more) ltac:(lia)) as [bufTips Htips].
  assert (Hmenu : exists bufCompletion,
    match es_completion bs with
    | Some comp => b ← refreshCompletion cols comp; Some (Some b)
    | None => Some None
    end = Some bufCompletion).
  { destruct (es_completion bs) as [comp|]; [|eauto].
    destruct (refreshCompletion_runs cols comp ltac:(lia)) as (b & -> & _).
    cbn [mbind option_bind]. eauto. }
  destruct Hmenu as [bufCompletion Hmenu].
  set (buf := extend (extend (extend bl' bufMode) bufTips) bufCompletion).
  assert (Hbuf : dot buf = dot bl /\ width buf = cols).
  { unfold buf.
    destruct (extend_fields (extend (extend bl' bufMode) bufTips) bufCompletion)
      as [-> ->].
    destruct (extend_fields (extend bl' bufMode) bufTips) as [-> ->].
    destruct (extend_fields bl' bufMode) as [-> ->].
    split; congruence. }
  exists bl, (fst (commitBuffer w buf)), (snd (commitBuffer w buf)).
  split; [exact Hline|]. split.
  - unfold refresh. rewrite Hline. cbn [mbind option_bind].
    rewrite Hrp. cbn [mbind option_bind].
    rewrite Hmode. cbn [mbind option_bind].
    rewrite Htips. cbn [mbind option_bind].
    rewrite Hmenu. cbn [mbind option_bind].
    fold buf. destruct (commitBuffer w buf). reflexivity.
  - unfold commitBuffer, File_Write.
    destruct (faults (file w)) as [|[|n e] rest]; cbn [fst snd file calls oldBuf];
      (split; [reflexivity|]); try exact Hbuf; reflexivity.
Qed.
End RpromptFacts.

(** * Concrete runs of the further properties *)

(** The parameters of [ESC [ 27 ; 2 ; 13 ~]. *)
Lemma csiParams_groups_witness :
  Forall (Forall (fun d => isDigit d = true)) [[50; 55]; [50]; [49; 51]]
  /\ csiParams (joinParams [[50; 55]; [50]; [49; 51]]) [] = [27; 2; 13].
Proof.
  assert (Hall : Forall (Forall (fun d => isDigit d = true))
                        [[50; 55]; [50]; [49; 51]])
    by (repeat constructor).
  split; [exact Hall|].
  exact (csiParams_groups [50; 55] [[50]; [49; 51]] Hall).
Defined.

(** The digits ["123"]. *)
Lemma accumulate_decimal_witness :
  Forall (fun d => isDigit d = true) [49; 50; 51]
  /\ decimal [49; 50; 51] < 2 ^ 63
  /\ accumulate 0 [49; 50; 51] = 123.
Proof.
  assert (Hds : Forall (fun d => isDigit d = true) [49; 50; 51])
    by (repeat constructor).
  split; [exact Hds|]. split; [reflexivity|].
  exact (proj2 (accumulate_decimal [49; 50; 51] Hds) eq_refl).
Defined.

(** Ctrl+Up: [ESC [ 1 ; 5 A]. *)
Lemma readKey_csi_sequence_witness :
  forallb isParamRune [49; 59; 53] = true
  /\ isParamRune 65 = false
  /\ @readKey sampleKeys
       (mkReader 7 (Rune 27 :: Rune 91 :: map Rune [49; 59; 53] ++ Rune 65 :: []))
     = (mkKey (@Up sampleKeys) (@Ctrl sampleKeys), None, mkReader (-1) []).
Proof.
  split; [reflexivity|]. split; [reflexivity|].
  exact (@readKey_csi_sequence sampleKeys [49; 59; 53] 65 [] 7 eq_refl eq_refl).
Defined.

(** An error of the byte source after ESC. *)
Lemma readKey_error_origin_witness :
  @readKey sampleKeys (mkReader (-1) [Rune 27; Fail (IOError "EIO")])
  = (mkKey 0 0, Some (IOError "EIO"), mkReader (-1) [])
  /\ (IOError "EIO" = BadEscSeq \/ IOError "EIO" = EOF
      \/ Fail (IOError "EIO") ∈ [Rune 27; Fail (IOError "EIO")]).
Proof.
  split; [reflexivity|].
  exact (proj1 (@readKey_error_origin sampleKeys
                  (mkReader (-1) [Rune 27; Fail (IOError "EIO")])
                  (mkKey 0 0) (IOError "EIO") (mkReader (-1) []) eq_refl)).
Defined.

(** The code 6: Shift and Ctrl. *)
Lemma xtermModify_codes_witness :
  2 <= 6 <= 8
  /\ @xtermModify sampleKeys (mkKey 65 0) 6 = (mkKey 65 5, None).
Proof.
  split; [lia|].
  apply (proj1 (@xtermModify_codes sampleKeys (mkKey 65 0) 6)). lia.
Defined.

(** Tab is Ctrl+I. *)
Lemma readKey_one_rune_witness :
  1 <= 9 <= 28 /\ 9 <> 27
  /\ @readKey sampleKeys (mkReader (-1) [Rune 9])
     = (mkKey 73 (@Ctrl sampleKeys), None, mkReader (-1) []).
Proof.
  split; [lia|]. split; [lia|].
  apply (proj1 (@readKey_one_rune sampleKeys 9 (-1) [])); lia.
Defined.

(** ESC before ['x']. *)
Lemma readKey_esc_other_witness :
  120 <> 91 /\ 120 <> 79
  /\ @readKey sampleKeys (mkReader (-1) [Rune 27; Rune 120])
     = (mkKey 27 (@Alt sampleKeys), None, mkReader (-1) []).
Proof.
  split; [lia|]. split; [lia|].
  apply (@readKey_esc_other sampleKeys 120 (-1) []); lia.
Defined.

(** Width 3 and indent 1: two letters, a wide rune, a line feed, a letter. *)
Lemma writeAll_cursor_witness :
  0 <= 3
  /\ exists b0 b lines l,
       newBuffer 3 = Some b0
       /\ @writeAll sampleWidths
            [(97, ""); (98, ""); (19990, "x"); (10, ""); (100, "")]
            (with_indent b0 1) = Some b
       /\ width b = 3 /\ indent b = 1 /\ dot b = mkPos 0 0
       /\ cells b = lines ++ [l]
       /\ cursor b = mkPos (len lines) (lineWidth l)
       /\ (length lines <= 5)%nat.
Proof.
  split; [lia|].
  apply (@writeAll_cursor sampleWidths 3 1
           [(97, ""); (98, ""); (19990, "x"); (10, ""); (100, "")]).
  lia.
Defined.

(** Width 3: three letters, a control character, a wide rune. *)
Lemma writeAll_cells_witness :
  0 <= 3
  /\ exists b0 b,
       newBuffer 3 = Some b0
       /\ @writeAll sampleWidths
            [(97, ""); (98, "1"); (99, ""); (7, ""); (19990, "x")] b0 = Some b
       /\ concat (cells b)
          = [mkCell 97 1 ""; mkCell 98 1 "1"; mkCell 99 1 "";
             mkCell 19990 2 "x"].
Proof.
  split; [lia|].
  apply (@writeAll_cells sampleWidths 3
           [(97, ""); (98, "1"); (99, ""); (7, ""); (19990, "x")]).
  lia.
Defined.

(** Three columns of padding on a line of ten. *)
Lemma writePadding_spaces_witness :
  let b := mkBuffer 10 2 0 [[mkCell 97 1 ""; mkCell 98 1 ""]] (mkPos 0 0) in
  @IsPrint sampleWidths 32 = true /\ @wcwidth sampleWidths 32 = 1
  /\ 0 <= 3 /\ 0 <= col b /\ col b + 3 < width b
  /\ @writePadding sampleWidths 3 "7" b
     = Some (mkBuffer 10 5 0
               [[mkCell 97 1 ""; mkCell 98 1 "";
                 mkCell 32 1 "7"; mkCell 32 1 "7"; mkCell 32 1 "7"]]
               (mkPos 0 0)).
Proof.
  intros b. split; [reflexivity|]. split; [reflexivity|].
  split; [lia|]. split; [cbn; lia|]. split; [cbn; lia|].
  apply (proj2 (@writePadding_spaces sampleWidths b 3 "7" []
                  [mkCell 97 1 ""; mkCell 98 1 ""]));
    (reflexivity || (cbn; lia)).
Defined.

(** Two lines without attributes. *)
Lemma commit_plain_witness :
  let oldBuf := mkBuffer 0 0 0 [[]] (mkPos 0 0) in
  let buf := mkBuffer 10 1 0 [[mkCell 97 1 ""; mkCell 98 1 ""]; [mkCell 99 1 ""]]
                      (mkPos 1 1) in
  Forall (Forall (fun c => cell_attr c = "")) (cells buf)
  /\ commitBytes oldBuf buf = chr 13 +:+ esc +:+ "[Jab" +:+ chr 10 +:+ "c".
Proof.
  intros oldBuf buf.
  assert (Hall : Forall (Forall (fun c => cell_attr c = "")) (cells buf))
    by (repeat constructor).
  split; [exact Hall|].
  exact (commit_plain oldBuf buf Hall).
Defined.

(** Prompt ["> "], text ["ab"], the edit cursor after it. *)
Lemma refreshLine_dot_at_end_witness :
  let bs := mkEditorState [mkToken 1 [97; 98]] [62; 32] 2 None in
  exists b,
    @refreshLine sampleWidths sampleAttrs 20 bs = Some b
    /\ es_dot bs = textBytes (tokens bs)
    /\ dot b = mkPos 0 4 /\ cursor b = mkPos 0 4.
Proof.
  intros bs. eexists. split; [reflexivity|]. split; [reflexivity|].
  split; [|reflexivity].
  exact (@refreshLine_dot_at_end sampleWidths sampleAttrs 20 bs _
           eq_refl eq_refl).
Defined.

Lemma sampleWidths_range (r : rune) : 0 <= @wcwidth sampleWidths r <= 2.
Proof.
  cbn. destruct ((19968 <=? r) && (r <=? 40959)); [lia|].
  destruct ((768 <=? r) && (r <=? 879)); lia.
Defined.

(** A terminal of five columns, a prompt, a text with a wide rune, and a
    completion with its first candidate selected. *)
Lemma refreshLine_fits_witness :
  let cand := mkCandidate [97; 98; 99] [mkPart [97; 98] true; mkPart [99] false] in
  let bs := mkEditorState [mkToken 1 [120; 32; 97; 98; 19990]] [62; 32] 4
              (Some (mkCompletion 2 4 2 [cand] 0)) in
  2 <= 5
  /\ (forall r, 0 <= @wcwidth sampleWidths r <= 2)
  /\ selection_ok bs
  /\ exists b, @refreshLine sampleWidths sampleAttrs 5 bs = Some b
               /\ width b = 5 /\ fits b.
Proof.
  intros cand bs.
  assert (Hsel : selection_ok bs).
  { intros comp [= <-]. right. unfold len. simpl. lia. }
  split; [lia|]. split; [exact sampleWidths_range|]. split; [exact Hsel|].
  apply (@refreshLine_fits sampleWidths sampleAttrs 5 bs);
    [lia|exact sampleWidths_range|exact Hsel].
Defined.

(** Five candidates in three columns of two rows. *)
Lemma gridOrder_covers_witness :
  1 <= 3 /\ 5 <= 2 * 3
  /\ gridOrder 2 3 5 = [0; 2; 4; 1; 3]
  /\ NoDup (gridOrder 2 3 5)
  /\ forall k, k ∈ gridOrder 2 3 5 <-> 0 <= k < 5.
Proof.
  split; [lia|]. split; [lia|]. split; [reflexivity|].
  apply (gridOrder_covers 2 3 5); lia.
Defined.

(** The candidates ["foo"] and ["foobar"] on a terminal of ten columns. *)
Lemma refreshCompletion_cells_witness :
  let comp := mkCompletion 0 2 2
                [mkCandidate [102; 111; 111] [];
                 mkCandidate [102; 111; 111; 98; 97; 114] []] 1 in
  0 <= 10
  /\ exists b,
       @refreshCompletion sampleWidths sampleNames 10 comp = Some b
       /\ width b = 10
       /\ concat (cells b)
          = flat_map (fun k => @cellsOf sampleWidths
                                 (@entryWrites sampleNames comp 6 k))
                     (gridOrder 2 1 2).
Proof.
  intros comp. split; [lia|].
  apply (@refreshCompletion_cells sampleWidths sampleNames 10 comp). lia.
Defined.

(** A right prompt ["#"] after two cells on a line of ten. *)
Lemma refreshRprompt_place_witness :
  let b := mkBuffer 10 2 0 [[mkCell 62 1 ""; mkCell 32 1 ""]] (mkPos 0 2) in
  1 <= width b - 1 - col b - @wcwidths sampleNames [35]
  /\ @wcwidths sampleNames [35] = @textWidth sampleWidths [35]
  /\ @refreshRprompt sampleWidths sampleNames [35] b
     = Some (mkBuffer 10 9 0
               [[mkCell 62 1 ""; mkCell 32 1 "";
                 mkCell 32 1 ""; mkCell 32 1 ""; mkCell 32 1 "";
                 mkCell 32 1 ""; mkCell 32 1 ""; mkCell 32 1 "";
                 mkCell 35 1 "7"]]
               (mkPos 0 2)).
Proof.
  intros b. split; [cbn; lia|]. split; [reflexivity|].
  apply (proj2 (@refreshRprompt_place sampleWidths sampleNames [35] b []
                  [mkCell 62 1 ""; mkCell 32 1 ""]));
    try reflexivity; try (cbn; lia).
  constructor; [|constructor]. split; [lia|]. split; [reflexivity|cbn; lia].
Defined.

(** A whole refresh on a terminal of ten columns whose [Write] fails. *)
Lemma refresh_runs_witness :
  let bs := mkEditorState [mkToken 1 [97; 98; 99]] [62; 32] 3 None in
  let more := mkEditorRest [35] 1 [[116; 105; 112]] in
  let w := mkWriter (mkFile "" 0 [WriteErr 0 (IOError "EIO")])
                    (mkBuffer 0 0 0 [[]] (mkPos 0 0)) in
  2 <= 10
  /\ (forall r, 0 <= @wcwidth sampleWidths r <= 2)
  /\ selection_ok bs
  /\ exists bl w' err,
       @refreshLine sampleWidths sampleAttrs 10 bs = Some bl
       /\ @refresh sampleWidths sampleAttrs sampleNames w 10 bs more
          = Some (w', err)
       /\ calls (file w') = S (calls (file w))
       /\ match err with
          | None => dot (oldBuf w') = dot bl /\ width (oldBuf w') = 10
          | Some _ => oldBuf w' = oldBuf w
          end.
Proof.
  intros bs more w.
  assert (Hsel : selection_ok bs) by (intros comp [=]).
  split; [lia|]. split; [exact sampleWidths_range|]. split; [exact Hsel|].
  apply (@refresh_runs sampleWidths sampleAttrs sampleNames w 10 bs more);
    [lia|exact sampleWidths_range|exact Hsel].
Defined.

(** Ctrl+Delete: the parameters [3; 5] before ['~']. *)
Lemma parseCSI_accepts_witness :
  @lookup_table 3 (@keyByNum0 sampleKeys) = Some (@Delete sampleKeys)
  /\ @parseCSI sampleKeys [3; 5] 126
     = (mkKey (@Delete sampleKeys) (@Ctrl sampleKeys), None).
Proof.
  split; [reflexivity|].
  apply (proj2 (@parseCSI_accepts sampleKeys [3; 5] 126
                  (mkKey (@Delete sampleKeys) (@Ctrl sampleKeys)))).
  right. right. exists 3, 5, (@Delete sampleKeys).
  repeat split; reflexivity.
Defined.


(** A line buffer extended by no mode buffer and a buffer of two lines. *)
Lemma extend_all_witness :
  let b := mkBuffer 10 3 2 [[mkCell 97 1 ""]] (mkPos 0 1) in
  let b2 := mkBuffer 10 1 0 [[mkCell 98 1 ""]; [mkCell 99 1 ""]] (mkPos 0 0) in
  cells b2 = [mkCell 98 1 ""] :: [[mkCell 99 1 ""]]
  /\ cursor (extend b (Some b2)) = mkPos 2 1
  /\ cells (fold_left extend [None; Some b2] b)
     = [[mkCell 97 1 ""]; [mkCell 98 1 ""]; [mkCell 99 1 ""]].
Proof.
  intros b b2. split; [reflexivity|]. split.
  - apply (proj2 (proj2 (proj2 (proj2 (extend_all b [])))) b2
             [mkCell 98 1 ""] [[mkCell 99 1 ""]]).
    reflexivity.
  - exact (proj1 (extend_all b [None; Some b2])).
Defined.


